(** * Zone state synchronisation for the OVHcloud DNS provider

    A shallow embedding of

      - [pkg/controller/provider/ovhcloud/access.go]: the remote access
        client ([getZones], [getRecordSets], [getRecordSet],
        [createRecordSet], [updateRecordSet], [deleteRecordSet],
        [refreshZone]);
      - the OVHcloud handler, package [ovhcloud] in
        [pkg/dns/source/dnsinfo.go] ([getZones], [getZoneState],
        [executeRequests]).

    Remote calls are effects.  They are modelled in a state-and-error
    monad over a [World] that holds the remote zone store, the rate
    limiter's counter, the metrics sink, the chronological trace of the
    remote calls issued so far, and a schedule of transport faults.

    The sources are a draft: some names are unbound and some calls do
    not match their callee.  The model follows the text as it stands and
    says, at the definition concerned, how such a place is read:
    [return nil, fmt.Errorf(...)] in a function that returns an error is
    the error return, and a bare [return] returns no error.  Logging
    changes nothing that is observed here and is left out. *)

From Stdlib Require Import ZArith String Ascii List Lia Bool.
From stdpp Require Import base option list gmap strings.

Local Open Scope Z_scope.
Local Open Scope string_scope.
Local Open Scope list_scope.

(** ** Wire entities ([access.go]) *)

(** [recordInfo]: one remote record.  Go's zero values are [""] and [0]. *)
Record recordInfo : Type := mkRecordInfo {
  FieldType : string;
  Id        : Z;
  SubDomain : string;
  Target    : string;
  Ttl       : Z;
  Zone      : string
}.

(** [zoneInfo]: the metadata of one remote zone. *)
Record zoneInfo : Type := mkZoneInfo {
  DnssecSupported : bool;
  HasDnsAnycast   : bool;
  LastUpdate      : string;
  Name            : string;
  NameServers     : list string
}.

(** ** Remote calls

    An endpoint is kept in structured form instead of the string that
    [fmt.Sprintf] and [url.PathEscape] build: one constructor per
    (verb, endpoint pattern) of the REST surface, with the values that
    the source formats into the path or sends as the body. *)
Inductive Call : Type :=
| GetZoneList                                         (* GET /domain/zone *)
| GetZoneInfo (z : string)                            (* GET /domain/zone/%s *)
| GetRecordIds (zone fieldType subDomain : string)    (* GET /domain/zone/%s/record?fieldType=%s&subDomain=%s *)
| GetRecord (zone : string) (id : Z)                  (* GET /domain/zone/%s/record/%i *)
| PostRecord (zone : string) (r : recordInfo)         (* POST /domain/zone/%s/record *)
| PutRecord (zone : string) (id : Z) (r : recordInfo) (* PUT /domain/zone/%s/record/%d *)
| DeleteRecord (zone : string) (id : Z)               (* DELETE /domain/zone/%s/record/%d *)
| PostRefresh (zone : string).                        (* POST /domain/zone/%s/refresh *)

Definition isRefresh (c : Call) : bool :=
  match c with PostRefresh _ => true | _ => false end.
Definition isDelete (c : Call) : bool :=
  match c with DeleteRecord _ _ => true | _ => false end.
Definition isPut (c : Call) : bool :=
  match c with PutRecord _ _ _ => true | _ => false end.
Definition isPost (c : Call) : bool :=
  match c with PostRecord _ _ => true | _ => false end.
Definition isRead (c : Call) : bool :=
  match c with GetRecordIds _ _ _ | GetRecord _ _ => true | _ => false end.
(** A write is a call that changes records: create, update or delete. *)
Definition isWrite (c : Call) : bool := isPost c || isPut c || isDelete c.

(** A trace entry: the call and whether it succeeded. *)
Definition Event : Type := (Call * bool)%type.

(** How many calls of a trace satisfy [p], and how many of them succeeded. *)
Definition countCalls (p : Call -> bool) (t : list Event) : nat :=
  length (List.filter (fun ev => p (fst ev)) t).
Definition countSucceeded (p : Call -> bool) (t : list Event) : nat :=
  length (List.filter (fun ev => p (fst ev) && snd ev) t).

(** ** Errors

    The source builds its errors with [fmt.Errorf], each wrapping the
    error below it in a message of its own; one constructor per message. *)
Inductive error : Type :=
| ClientError (c : Call)                        (* what the transport returns *)
| ErrorCalling (c : Call) (e : error)           (* "Error calling <VERB> %s: %s" *)
| CouldNotFindRecord (zone subDomain fieldType : string)
                                                (* "Could not find record for zone %s, subDomain %s and type %s" *)
| CreateFailed (zoneId : string) (e : error)    (* "Create DNS zone record failed for %s. Details: %s" *)
| UpdateFailed (zoneId : string) (e : error)    (* "Update DNS zone record failed for %s. Details: %s" *)
| DeleteFailed (zoneId : string) (e : error)    (* "Delete DNS zone record failed for %s. Details: %s" *)
| RefreshFailed (zoneId : string) (e : error)   (* "Refesh DNS zone failed for %s. Details: %s" *)
| ListingZonesFailed (e : error)                (* "listing DNS zones failed. Details: %s" *)
| ListingRecordsFailed (zone : string) (e : error)
                                                (* "listing DNS zone records failed for zone %s. Details: %s" *)
| ListingStateFailed (zoneId : string) (e : error).
                                                (* "Listing DNS zones failed for %s. Details: %s" *)

(** The error at the root of a chain of wrapped errors. *)
Fixpoint rootCause (e : error) : error :=
  match e with
  | ErrorCalling _ e' | CreateFailed _ e' | UpdateFailed _ e' | DeleteFailed _ e'
  | RefreshFailed _ e' | ListingZonesFailed e' | ListingRecordsFailed _ e'
  | ListingStateFailed _ e' => rootCause e'
  | ClientError _ | CouldNotFindRecord _ _ _ => e
  end.

(** ** The remote store

    Modelled from the spec: the server side of the REST surface is not
    part of the sources.  Section 6 of the specification lists its
    resources; this is the store behind them: the zones and the records
    in listing order, and the id the server assigns to the next record. *)
Record Remote : Type := mkRemote {
  zones   : list zoneInfo;
  records : list recordInfo;
  nextId  : Z
}.

(** The listing filter: an empty [fieldType] or [subDomain] means all. *)
Definition listed (zone fieldType subDomain : string) (r : recordInfo) : bool :=
  String.eqb (Zone r) zone
  && (String.eqb fieldType "" || String.eqb (FieldType r) fieldType)
  && (String.eqb subDomain "" || String.eqb (SubDomain r) subDomain).

Definition hasId (zone : string) (id : Z) (r : recordInfo) : bool :=
  String.eqb (Zone r) zone && Z.eqb (Id r) id.

Definition setTtl (ttl : Z) (r : recordInfo) : recordInfo :=
  mkRecordInfo (FieldType r) (Id r) (SubDomain r) (Target r) ttl (Zone r).

Definition serveZoneList (s : Remote) : option (list string * Remote) :=
  Some (map Name (zones s), s).

Definition serveZoneInfo (z : string) (s : Remote) : option (zoneInfo * Remote) :=
  match List.find (fun zi => String.eqb (Name zi) z) (zones s) with
  | Some zi => Some (zi, s)
  | None => None
  end.

Definition serveRecordIds (zone fieldType subDomain : string) (s : Remote)
  : option (list Z * Remote) :=
  Some (map Id (List.filter (listed zone fieldType subDomain) (records s)), s).

Definition serveRecord (zone : string) (id : Z) (s : Remote)
  : option (recordInfo * Remote) :=
  match List.find (hasId zone id) (records s) with
  | Some r => Some (r, s)
  | None => None
  end.

Definition servePost (zone : string) (r : recordInfo) (s : Remote)
  : option (unit * Remote) :=
  let stored :=
    mkRecordInfo (FieldType r) (nextId s) (SubDomain r) (Target r) (Ttl r) zone in
  Some (tt, mkRemote (zones s) (records s ++ [stored]) (nextId s + 1)).

(** The body of a PUT is partial: the source fills in the TTL only, and
    a zero TTL is left out of the JSON ([omitempty]). *)
Definition servePut (zone : string) (id : Z) (r : recordInfo) (s : Remote)
  : option (unit * Remote) :=
  if existsb (hasId zone id) (records s)
  then Some (tt, mkRemote (zones s)
                   (map (fun x => if hasId zone id x && negb (Z.eqb (Ttl r) 0)
                                  then setTtl (Ttl r) x else x)
                        (records s))
                   (nextId s))
  else None.

Definition serveDelete (zone : string) (id : Z) (s : Remote)
  : option (unit * Remote) :=
  if existsb (hasId zone id) (records s)
  then Some (tt, mkRemote (zones s)
                   (List.filter (fun x => negb (hasId zone id x)) (records s))
                   (nextId s))
  else None.

Definition serveRefresh (zone : string) (s : Remote) : option (unit * Remote) :=
  Some (tt, s).

(** ** The world and the monad *)

(** Operation classes of the metrics sink ([provider.M_*]). *)
Inductive MetricClass : Type :=
| M_LISTZONES | M_LISTRECORDS | M_CREATERECORDS | M_UPDATERECORDS | M_DELETERECORDS.

Record World : Type := mkWorld {
  remote  : Remote;
  faults  : list bool;                     (* head: does the next call fail? *)
  calls   : list Event;                    (* the calls issued, oldest first *)
  tokens  : nat;                           (* rate limiter acquisitions *)
  metrics : list (string * MetricClass)    (* metric increments, oldest first *)
}.

Inductive result (A : Type) : Type :=
| Ok (a : A)
| Err (e : error).
Arguments Ok {A} a.
Arguments Err {A} e.

Definition isOk {A} (r : result A) : bool :=
  match r with Ok _ => true | Err _ => false end.

Definition M (A : Type) : Type := World -> result A * World.

Definition ret {A} (a : A) : M A := fun w => (Ok a, w).

Definition bind {A B} (m : M A) (k : A -> M B) : M B :=
  fun w =>
    match m w with
    | (Ok a, w') => k a w'
    | (Err e, w') => (Err e, w')
    end.

(** [if err := m; err != nil { return fmt.Errorf(..., err) }] *)
Definition wrapErr {A} (f : error -> error) (m : M A) : M A :=
  fun w =>
    match m w with
    | (Ok a, w') => (Ok a, w')
    | (Err e, w') => (Err (f e), w')
    end.

Definition throw {A} (e : error) : M A := fun w => (Err e, w).

Declare Scope m_scope.
Delimit Scope m_scope with M.
Notation "x <- c1 ;; c2" := (bind c1 (fun x => c2))
  (at level 100, c1 at next level, right associativity) : m_scope.
Notation "c1 ;; c2" := (bind c1 (fun _ => c2))
  (at level 100, right associativity) : m_scope.
Local Open Scope m_scope.

(** [rateLimiter.Accept()]: takes a token; it never fails. *)
Definition Accept : M unit :=
  fun w => (Ok tt, mkWorld (remote w) (faults w) (calls w) (S (tokens w)) (metrics w)).

(** [metrics.AddZoneRequests(zone, class, 1)] *)
Definition AddZoneRequests (zone : string) (c : MetricClass) : M unit :=
  fun w => (Ok tt, mkWorld (remote w) (faults w) (calls w) (tokens w)
                     (metrics w ++ [(zone, c)])).

(** One remote call: it is appended to the trace with its outcome and
    consumes the head of the fault schedule; it fails when the schedule
    says so or when the server refuses it, and otherwise yields the
    server's answer and the server's new store. *)
Definition request {A} (c : Call) (serve : Remote -> option (A * Remote)) : M A :=
  fun w =>
    let issued s ok :=
      mkWorld s (tl (faults w)) (calls w ++ [(c, ok)]) (tokens w) (metrics w) in
    match faults w with
    | true :: _ => (Err (ClientError c), issued (remote w) false)
    | _ =>
        match serve (remote w) with
        | Some (a, s') => (Ok a, issued s' true)
        | None => (Err (ClientError c), issued (remote w) false)
        end
    end.

(** ** The access layer ([access.go]) *)

(** [getZones]: the zone names, then the metadata of each.  The source
    passes an unbound [zone] to the metrics sink; the model records the
    empty zone for the listing and the fetched name for each zone. *)
Fixpoint fetchZones (zs : list string) (zones : list zoneInfo) : M (list zoneInfo) :=
  match zs with
  | [] => ret zones
  | z :: zs' =>
      Accept ;;
      AddZoneRequests z M_LISTZONES ;;
      zi <- wrapErr (ErrorCalling (GetZoneInfo z))
              (request (GetZoneInfo z) (serveZoneInfo z)) ;;
      fetchZones zs' (zones ++ [zi])
  end.

Definition access_getZones : M (list zoneInfo) :=
  Accept ;;
  AddZoneRequests "" M_LISTZONES ;;
  zs <- wrapErr (ErrorCalling GetZoneList) (request GetZoneList serveZoneList) ;;
  fetchZones zs [].

Definition createRecordSet (zone name value fieldType : string) (ttl : Z) : M unit :=
  let r := mkRecordInfo fieldType 0 name value ttl "" in
  Accept ;;
  AddZoneRequests zone M_CREATERECORDS ;;
  wrapErr (ErrorCalling (PostRecord zone r)) (request (PostRecord zone r) (servePost zone r)).

(** The loop of [getRecordSets] over the listed ids. *)
Fixpoint fetchRecords (zone : string) (rs : list Z) (records : list recordInfo)
  : M (list recordInfo) :=
  match rs with
  | [] => ret records
  | r :: rs' =>
      Accept ;;
      AddZoneRequests zone M_LISTRECORDS ;;
      ri <- wrapErr (ErrorCalling (GetRecord zone r))
              (request (GetRecord zone r) (serveRecord zone r)) ;;
      fetchRecords zone rs' (records ++ [ri])
  end.

Definition getRecordSets (zone subDomain fieldType : string) : M (list recordInfo) :=
  Accept ;;
  AddZoneRequests zone M_LISTRECORDS ;;
  rs <- wrapErr (ErrorCalling (GetRecordIds zone fieldType subDomain))
          (request (GetRecordIds zone fieldType subDomain)
                   (serveRecordIds zone fieldType subDomain)) ;;
  fetchRecords zone rs [].

(** [getRecordSet]: the first listed record whose target is [value],
    [None] for Go's [nil, nil]. *)
Definition getRecordSet (zone subDomain value fieldType : string)
  : M (option recordInfo) :=
  records <- getRecordSets zone subDomain fieldType ;;
  ret (List.find (fun r => String.eqb (Target r) value) records).

(** [updateRecordSet].  The call of [getRecordSet] in the source leaves
    out the [value] argument of its four; the model passes the caller's
    own [value], the one the callee's loop compares targets with.
    [return nil, fmt.Errorf(...)] is the error return, as everywhere in
    these sources. *)
Definition updateRecordSet (zone subDomain value fieldType : string) (ttl : Z) : M unit :=
  record <- getRecordSet zone subDomain value fieldType ;;
  match record with
  | None => throw (CouldNotFindRecord zone subDomain fieldType)
  | Some record =>
      let ri := mkRecordInfo "" 0 "" "" ttl "" in
      Accept ;;
      AddZoneRequests zone M_UPDATERECORDS ;;
      wrapErr (ErrorCalling (PutRecord zone (Id record) ri))
        (request (PutRecord zone (Id record) ri) (servePut zone (Id record) ri))
  end.

(** [deleteRecordSet]: the lookup is called as in [updateRecordSet];
    a record that is not found is not an error here. *)
Definition deleteRecordSet (zone subDomain value fieldType : string) : M unit :=
  record <- getRecordSet zone subDomain value fieldType ;;
  match record with
  | None => ret tt
  | Some record =>
      Accept ;;
      AddZoneRequests zone M_DELETERECORDS ;;
      wrapErr (ErrorCalling (DeleteRecord zone (Id record)))
        (request (DeleteRecord zone (Id record)) (serveDelete zone (Id record)))
  end.

Definition refreshZone (zone : string) : M unit :=
  Accept ;;
  AddZoneRequests zone M_UPDATERECORDS ;;
  wrapErr (ErrorCalling (PostRefresh zone)) (request (PostRefresh zone) (serveRefresh zone)).

(** ** The abstract model ([pkg/dns], [pkg/dns/provider]) *)

Module dns.

(** Modelled from the spec: the record types that are synchronised,
    "only types A, CNAME, TXT"; the constants are declared outside the
    sources. *)
Definition RS_A : string := "A".
Definition RS_CNAME : string := "CNAME".
Definition RS_TXT : string := "TXT".

(** [dns.Record]: a single value of a record set. *)
Record Record_ : Type := mkRecord { Value : string }.

(** [dns.RecordSet] *)
Record RecordSet : Type := mkRecordSet {
  Type_   : string;
  TTL     : Z;
  Records : list Record_
}.

Definition NewRecordSet (rtype : string) (ttl : Z) (records : list Record_)
  : RecordSet := mkRecordSet rtype ttl records.

(** [rs.Add(record)] *)
Definition Add (rs : RecordSet) (r : Record_) : RecordSet :=
  mkRecordSet (Type_ rs) (TTL rs) (Records rs ++ [r]).

(** Modelled from the spec: a DNSSet is the record sets at one name,
    one per type. *)
Record DNSSet : Type := mkDNSSet {
  Name : string;
  Sets : gmap string RecordSet
}.

Definition NewDNSSet (name : string) : DNSSet := mkDNSSet name ∅.

End dns.

Module recordsets.

(** The record set that the remote enumeration hands to the handler of
    [getZoneState]: name, type, TTL and the record values. *)
Record RecordSet : Type := mkRecordSet {
  Name    : string;
  Type_   : string;
  TTL     : Z;
  Records : list string
}.

End recordsets.

Module provider.

Inductive Action : Type := R_CREATE | R_UPDATE | R_DELETE.

(** Modelled from the spec: a change request is "an action tag
    (create/update/delete) plus the RecordSet it targets".  The source
    reads [req.Type] and an unbound [dnsset]; the model takes both from
    the request. *)
Record ChangeRequest : Type := mkChangeRequest {
  Action_ : Action;
  Type_   : string;
  dnsset  : dns.DNSSet
}.

(** What [NewDNSHostedZone(ptype, id, domain, key, forwarded, isPrivate)]
    builds. *)
Record DNSHostedZone : Type := NewDNSHostedZone {
  ProviderType     : string;
  Id               : string;
  Domain           : string;
  Key              : string;
  ForwardedDomains : list string;
  IsPrivate        : bool
}.

(** What [NewDNSZoneState(dnssets)] builds. *)
Record DNSZoneState : Type := NewDNSZoneState {
  GetDNSSets : gmap string dns.DNSSet
}.

Record DNSHandlerConfig : Type := mkConfig { DryRun : bool }.

End provider.

(** The handler; the access object and the rate limiter live in the world. *)
Record Handler : Type := mkHandler { config : provider.DNSHandlerConfig }.

(** How the request loop of [executeRequests] ends: by the bare [return]
    inside it, or by running off its end with the [updated] flag. *)
Inductive loopExit : Type :=
| Returned
| Completed (updated : bool).

Section OVHcloudHandler.

(** Functions of [pkg/dns] and the handler's wiring that the sources
    use and do not define. *)
Variable NormalizeHostname : string -> string.
Variable AlignHostname : string -> string.
Variable MapToProvider : string -> dns.DNSSet -> string -> string * dns.RecordSet.
Variable TYPE_CODE : string.
(** The remote enumeration behind [client.ForEachRecordSet]. *)
Variable listRecordSets : string -> M (list recordsets.RecordSet).

(** *** Zone directory: [Handler.getZones] *)

(** [fmt.Sprintf("%s.%s", r.Subdomain, r.Zone)] *)
Definition ownerName (r : recordInfo) : string :=
  SubDomain r +:+ "." +:+ Zone r.

(** The inner loop of [getZones] over the NS records of one zone. *)
Fixpoint forwardedLoop (zName : string) (records : list recordInfo)
    (forwarded : list string) : list string :=
  match records with
  | [] => forwarded
  | r :: rest =>
      let name := ownerName r in
      if negb (String.eqb name zName)
      then forwardedLoop zName rest (forwarded ++ [NormalizeHostname name])
      else forwardedLoop zName rest forwarded
  end.

(** The outer loop of [getZones] over the zones. *)
Fixpoint hostedZonesLoop (zones : list zoneInfo)
    (hostedZones : list provider.DNSHostedZone) : M (list provider.DNSHostedZone) :=
  match zones with
  | [] => ret hostedZones
  | z :: rest =>
      records <- wrapErr (ListingRecordsFailed (Name z))
                   (getRecordSets (Name z) "" "NS") ;;
      let forwarded := forwardedLoop (Name z) records [] in
      let hostedZone :=
        provider.NewDNSHostedZone TYPE_CODE (Name z) (NormalizeHostname (Name z))
          (Name z) forwarded false in
      hostedZonesLoop rest (hostedZones ++ [hostedZone])
  end.

Definition Handler_getZones (h : Handler) : M (list provider.DNSHostedZone) :=
  zones <- wrapErr ListingZonesFailed access_getZones ;;
  hostedZonesLoop zones [].

(** *** Zone state reader: [Handler.getZoneState] *)

(** Modelled from the spec: [AddRecordSetFromProvider] is declared
    outside the sources.  The collection maps the normalized record
    name to the record sets at that name, one per type, and is built by
    repeated merges of one record set. *)
Definition AddRecordSetFromProvider (dnssets : gmap string dns.DNSSet)
    (dnsName : string) (rs : dns.RecordSet) : gmap string dns.DNSSet :=
  let name := NormalizeHostname dnsName in
  let dnsset := default (dns.NewDNSSet name) (dnssets !! name) in
  <[name := dns.mkDNSSet (dns.Name dnsset) (<[dns.Type_ rs := rs]> (dns.Sets dnsset))]>
    dnssets.

Definition supportedType (t : string) : bool :=
  String.eqb t dns.RS_A || String.eqb t dns.RS_CNAME || String.eqb t dns.RS_TXT.

(** The value loop of the handler: each record of the remote set is
    added, a CNAME value normalized first. *)
Fixpoint addValues (rtype : string) (records : list string) (rs : dns.RecordSet)
  : dns.RecordSet :=
  match records with
  | [] => rs
  | record :: rest =>
      let value :=
        if String.eqb rtype dns.RS_CNAME then NormalizeHostname record else record in
      addValues rtype rest (dns.Add rs (dns.mkRecord value))
  end.

(** The closure [recordSetHandler]: it updates the captured [dnssets]
    and returns [nil]. *)
Definition recordSetHandler (dnssets : gmap string dns.DNSSet)
    (recordSet : recordsets.RecordSet) : gmap string dns.DNSSet * option error :=
  if supportedType (recordsets.Type_ recordSet)
  then
    let rs := dns.NewRecordSet (recordsets.Type_ recordSet)
                (recordsets.TTL recordSet) [] in
    let rs := addValues (recordsets.Type_ recordSet)
                (recordsets.Records recordSet) rs in
    (AddRecordSetFromProvider dnssets (recordsets.Name recordSet) rs, None)
  else (dnssets, None).

(** Modelled from the spec: [ForEachRecordSet] is not part of the
    sources.  It enumerates the record sets of the zone and calls the
    handler on each in order; it fails when the enumeration fails or
    the handler returns an error. *)
Fixpoint forEach (handler : gmap string dns.DNSSet -> recordsets.RecordSet ->
                            gmap string dns.DNSSet * option error)
    (rsets : list recordsets.RecordSet) (dnssets : gmap string dns.DNSSet)
  : result (gmap string dns.DNSSet) :=
  match rsets with
  | [] => Ok dnssets
  | rset :: rest =>
      match handler dnssets rset with
      | (dnssets', None) => forEach handler rest dnssets'
      | (_, Some e) => Err e
      end
  end.

Definition ForEachRecordSet (zoneId : string)
    (handler : gmap string dns.DNSSet -> recordsets.RecordSet ->
               gmap string dns.DNSSet * option error)
    (dnssets : gmap string dns.DNSSet) : M (gmap string dns.DNSSet) :=
  rsets <- listRecordSets zoneId ;;
  match forEach handler rsets dnssets with
  | Ok d => ret d
  | Err e => throw e
  end.

Definition getZoneState (h : Handler) (zone : provider.DNSHostedZone)
  : M provider.DNSZoneState :=
  Accept ;;
  dnssets <- wrapErr (ListingStateFailed (provider.Id zone))
               (ForEachRecordSet (provider.Id zone) recordSetHandler ∅) ;;
  ret (provider.NewDNSZoneState dnssets).

(** *** Change executor: [Handler.executeRequests] *)

(** The [switch] on the action: one access call, its error wrapped. *)
Definition dispatch (action : provider.Action) (zoneId name value rtype : string)
    (ttl : Z) : M unit :=
  match action with
  | provider.R_CREATE =>
      wrapErr (CreateFailed zoneId) (createRecordSet zoneId name value rtype ttl)
  | provider.R_UPDATE =>
      wrapErr (UpdateFailed zoneId) (updateRecordSet zoneId name value rtype ttl)
  | provider.R_DELETE =>
      wrapErr (DeleteFailed zoneId) (deleteRecordSet zoneId name value rtype)
  end.

(** The inner loop over [rset.Records].  [updated] is set on entry of
    every iteration, before the call is made; an error returns from
    the whole function.  The loop variable shadows the request, whose
    action the [switch] reads. *)
Fixpoint dispatchRecords (action : provider.Action) (zoneId name rtype : string)
    (ttl : Z) (records : list dns.Record_) (updated : bool) : M bool :=
  match records with
  | [] => ret updated
  | r :: rest =>
      Accept ;;
      dispatch action zoneId name (dns.Value r) rtype ttl ;;
      dispatchRecords action zoneId name rtype ttl rest true
  end.

(** The loop over the requests.  A request whose mapped record set is
    empty runs the bare [return]. *)
Fixpoint requestLoop (zone : provider.DNSHostedZone)
    (reqs : list provider.ChangeRequest) (updated : bool) : M loopExit :=
  match reqs with
  | [] => ret (Completed updated)
  | req :: rest =>
      let '(name, rset) :=
        MapToProvider (provider.Type_ req) (provider.dnsset req)
          (provider.Domain zone) in
      let name := AlignHostname name in
      if Nat.eqb (length (dns.Records rset)) 0
      then ret Returned
      else
        updated' <- dispatchRecords (provider.Action_ req) (provider.Id zone) name
                      (dns.Type_ rset) (dns.TTL rset) (dns.Records rset) updated ;;
        requestLoop zone rest updated'
  end.

Definition executeRequests (h : Handler) (zone : provider.DNSHostedZone)
    (state : provider.DNSZoneState) (reqs : list provider.ChangeRequest) : M unit :=
  if provider.DryRun (config h)
  then ret tt
  else
    exit <- requestLoop zone reqs false ;;
    match exit with
    | Returned => ret tt
    | Completed updated =>
        if updated
        then
          Accept ;;
          wrapErr (RefreshFailed (provider.Id zone)) (refreshZone (provider.Id zone))
        else ret tt
    end.

End OVHcloudHandler.

(** * Vocabulary of the properties *)

(** ** Traces *)

Definition succeeded (ev : Event) : Prop := snd ev = true.
Definition readEvent (ev : Event) : Prop := isRead (fst ev) = true.

(** A failed call, if any, is the last call of the trace. *)
Definition failsLast (t : list Event) : Prop :=
  forall t1 ev t2, t = t1 ++ ev :: t2 -> snd ev = false -> t2 = [].

(** A failed call of the trace is what the run fails with: the run
    returns an error whose root is the transport error of that call. *)
Definition blames {A} (r : result A) (t : list Event) : Prop :=
  forall c, In (c, false) t -> exists e, r = Err e /\ rootCause e = ClientError c.

(** A run that only reads: it extends the trace by read calls, leaves
    the store alone, all its calls succeeded exactly when it returns a
    value, a failed call is its last and is what it fails with. *)
Definition readOnlyRun {A} (w : World) (r : result A) (w' : World) : Prop :=
  exists t, calls w' = calls w ++ t /\ Forall readEvent t /\
            remote w' = remote w /\ (isOk r = true <-> Forall succeeded t) /\
            failsLast t /\ blames r t.

(** What every run of the request loop keeps: it extends the trace by
    [t], issues no refresh, all its calls succeeded when it returns a
    value, a failed call is its last and is what it fails with. *)
Definition recordRun {A} (w : World) (r : result A) (w' : World) (t : list Event) : Prop :=
  calls w' = calls w ++ t /\ countCalls isRefresh t = 0%nat /\
  (isOk r = true -> Forall succeeded t) /\ failsLast t /\ blames r t.

(** The flag a finished request loop hands to the refresh. *)
Definition exitFlag (x : loopExit) : bool :=
  match x with Returned => false | Completed updated => updated end.

(** ** The store *)

(** Record ids are assigned by the remote system and identify a record. *)
Definition uniqueIds (s : Remote) : Prop := NoDup (map Id (records s)).

(** The lookup of [getRecordSet] on the store: the first record, in
    listing order, that the listing filter lets through and whose target
    is the requested value. *)
Definition lookup (zone sd value ft : string) (s : Remote) : option recordInfo :=
  List.find (fun x => String.eqb (Target x) value)
    (List.filter (listed zone ft sd) (records s)).

(** ** Zones and zone states *)

Section Vocabulary.

Variable NormalizeHostname : string -> string.
Variable TYPE_CODE : string.

(** The hosted zone that [getZones] builds for the zone named [name]
    over the store [s]. *)
Definition hostedZoneOf (s : Remote) (name : string) : provider.DNSHostedZone :=
  provider.NewDNSHostedZone TYPE_CODE name (NormalizeHostname name) name
    (forwardedLoop NormalizeHostname name
       (List.filter (listed name "NS" "") (records s)) [])
    false.

(** The value stored for a remote value of a record set of type [rtype]. *)
Definition storedValue (rtype : string) (v : string) : string :=
  if String.eqb rtype dns.RS_CNAME then NormalizeHostname v else v.

(** A stored record set [rs], found under [name] and [rtype], comes from
    the remote record set [rset]. *)
Definition mergedFrom (rset : recordsets.RecordSet) (name rtype : string)
    (rs : dns.RecordSet) : Prop :=
  NormalizeHostname (recordsets.Name rset) = name /\
  recordsets.Type_ rset = rtype /\
  dns.Type_ rs = rtype /\
  dns.TTL rs = recordsets.TTL rset /\
  map dns.Value (dns.Records rs) = map (storedValue rtype) (recordsets.Records rset).

(** Every record set of the collection has a supported type and comes
    from one of the remote record sets [all]. *)
Definition onlySupported (all : list recordsets.RecordSet)
    (dnssets : gmap string dns.DNSSet) : Prop :=
  forall (name rtype : string) (dnsset : dns.DNSSet) (rs : dns.RecordSet),
    dnssets !! name = Some dnsset ->
    dns.Sets dnsset !! rtype = Some rs ->
    supportedType rtype = true /\ exists rset, In rset all /\ mergedFrom rset name rtype rs.

End Vocabulary.

(** * Example data *)

(** Instances of the functions that the sources do not define, for the
    examples: [exNormalizeHostname] drops a trailing dot,
    [exAlignHostname] adds the one that is missing, and
    [exMapToProvider] reads the name of the set and its record set of
    the requested type. *)
Fixpoint endsWithDot (s : string) : bool :=
  match s with
  | EmptyString => false
  | String c EmptyString => Ascii.eqb c "."%char
  | String _ s' => endsWithDot s'
  end.

Definition exNormalizeHostname (host : string) : string :=
  if endsWithDot host then substring 0 (String.length host - 1) host else host.

Definition exAlignHostname (host : string) : string :=
  if endsWithDot host then host else host +:+ ".".

Definition exMapToProvider (rtype : string) (d : dns.DNSSet) (base : string)
  : string * dns.RecordSet :=
  (dns.Name d, default (dns.mkRecordSet rtype 0 []) (dns.Sets d !! rtype)).

(** The zone [example.com] with one A record, [www -> 1.2.3.4]. *)
Definition exZone : provider.DNSHostedZone :=
  provider.NewDNSHostedZone "ovhcloud" "example.com" "example.com" "example.com" [] false.

Definition exRemote : Remote :=
  mkRemote [mkZoneInfo false false "" "example.com" []]
           [mkRecordInfo "A" 1 "www" "1.2.3.4" 300 "example.com"] 2.

(** A fresh world over [exRemote] with the given fault schedule. *)
Definition exWorld (faults : list bool) : World := mkWorld exRemote faults [] 0 [].

(** Two records that share sub-domain, type and target. *)
Definition exDuplicates : World :=
  mkWorld (mkRemote [mkZoneInfo false false "" "example.com" []]
             [mkRecordInfo "A" 1 "www" "1.2.3.4" 300 "example.com";
              mkRecordInfo "A" 2 "www" "1.2.3.4" 300 "example.com"] 3)
          [] [] 0 [].

(** The zone with its own NS record at the apex (empty sub-domain), one
    delegated sub-domain and one A record. *)
Definition exApex : World :=
  mkWorld (mkRemote [mkZoneInfo false false "" "example.com" ["dns200.anycast.me."]]
             [mkRecordInfo "NS" 1 "" "dns200.anycast.me." 0 "example.com";
              mkRecordInfo "NS" 2 "sub" "ns.other.net." 0 "example.com";
              mkRecordInfo "A" 3 "www" "1.2.3.4" 300 "example.com"] 4)
          [] [] 0 [].

Definition exState : provider.DNSZoneState := provider.NewDNSZoneState ∅.
Definition exHandler : Handler := mkHandler (provider.mkConfig false).
Definition exDryHandler : Handler := mkHandler (provider.mkConfig true).

Definition exSet (name rtype : string) (ttl : Z) (values : list string) : dns.DNSSet :=
  dns.mkDNSSet name {[ rtype := dns.mkRecordSet rtype ttl (map dns.mkRecord values) ]}.

(** A request for the A record set [name -> value], TTL 300. *)
Definition exRequest (a : provider.Action) (name value : string) : provider.ChangeRequest :=
  provider.mkChangeRequest a "A" (exSet name "A" 300 [value]).

(** A create request whose record set has no record. *)
Definition exEmpty : provider.ChangeRequest :=
  provider.mkChangeRequest provider.R_CREATE "A" (exSet "ftp" "A" 300 []).

(** The POST that creates [name -> value]. *)
Definition exPost (name value : string) : Call :=
  PostRecord "example.com" (mkRecordInfo "A" 0 name value 300 "").

Definition exRun (reqs : list provider.ChangeRequest) : M unit :=
  executeRequests exAlignHostname exMapToProvider exHandler exZone exState reqs.

(** A remote enumeration of three record sets: a CNAME, an MX and an A. *)
Definition exListing (zoneId : string) : M (list recordsets.RecordSet) :=
  ret [recordsets.mkRecordSet "www.example.com." "CNAME" 300 ["target.example.net."];
       recordsets.mkRecordSet "example.com." "MX" 300 ["10 mail.example.com."];
       recordsets.mkRecordSet "api.example.com." "A" 60 ["5.6.7.8"]].

Definition exCname : dns.RecordSet :=
  dns.mkRecordSet "CNAME" 300 [dns.mkRecord "target.example.net"].

(** The zone state read from [exListing]. *)
Definition exZoneState : provider.DNSZoneState :=
  provider.NewDNSZoneState
    {[ "www.example.com" := dns.mkDNSSet "www.example.com" {[ "CNAME" := exCname ]};
       "api.example.com" := dns.mkDNSSet "api.example.com"
                              {[ "A" := dns.mkRecordSet "A" 60 [dns.mkRecord "5.6.7.8"] ]} ]}.

(** * Properties *)

(** ** Running the monad *)

Lemma bind_inv {A B} (m : M A) (k : A -> M B) (w : World) (r : result B) (w' : World) :
  bind m k w = (r, w') ->
  (exists e, m w = (Err e, w') /\ r = Err e) \/
  (exists a w1, m w = (Ok a, w1) /\ k a w1 = (r, w')).
Proof.
  unfold bind. destruct (m w) as [[a|e] w1]; intros H.
  - right. eauto.
  - left. inversion H; subst. eauto.
Qed.

Lemma wrapErr_inv {A} (f : error -> error) (m : M A) (w : World) (r : result A) (w' : World) :
  wrapErr f m w = (r, w') ->
  (exists a, m w = (Ok a, w') /\ r = Ok a) \/
  (exists e, m w = (Err e, w') /\ r = Err (f e)).
Proof.
  unfold wrapErr. destruct (m w) as [[a|e] w1]; intros H; inversion H; subst; eauto.
Qed.

(** What one remote call does to the world. *)
Lemma request_inv {A} (c : Call) (serve : Remote -> option (A * Remote))
    (w : World) (r : result A) (w' : World) :
  request c serve w = (r, w') ->
  calls w' = calls w ++ [(c, isOk r)] /\
  tokens w' = tokens w /\
  ((r = Err (ClientError c) /\ remote w' = remote w) \/
   (exists a, r = Ok a /\ serve (remote w) = Some (a, remote w'))).
Proof.
  unfold request. intros H.
  destruct (faults w) as [|[|] fs]; [| inversion H; subst; simpl; auto | ];
    (destruct (serve (remote w)) as [[a s']|] eqn:E;
     inversion H; subst; simpl; eauto 8).
Qed.

(** ** Traces *)

Lemma failsLast_nil : failsLast [].
Proof. intros [|? ?] ev t2 H; discriminate H. Qed.

Lemma failsLast_single (ev : Event) : failsLast [ev].
Proof.
  intros [|x t1] ev' t2 H _.
  - inversion H. reflexivity.
  - destruct t1; discriminate H.
Qed.

Lemma failsLast_cons (c : Call) (t : list Event) :
  failsLast t -> failsLast ((c, true) :: t).
Proof.
  intros Ht [|x t1] ev t2 H Hev.
  - inversion H; subst. discriminate Hev.
  - inversion H; subst. exact (Ht t1 ev t2 eq_refl Hev).
Qed.

Lemma failsLast_app (t1 t2 : list Event) :
  Forall succeeded t1 -> failsLast t2 -> failsLast (t1 ++ t2).
Proof.
  intros H1 H2. induction H1 as [|[c ok] t1 Hs _ IH]; [exact H2|].
  unfold succeeded in Hs. simpl in Hs. subst ok. apply failsLast_cons, IH.
Qed.

Lemma blames_nil {A} (r : result A) : blames r [].
Proof. intros c []. Qed.

Lemma blames_cons {A} (r : result A) (c : Call) (t : list Event) :
  blames r t -> blames r ((c, true) :: t).
Proof. intros H c' [Hin|Hin]; [discriminate Hin|exact (H c' Hin)]. Qed.

Lemma blames_app {A} (r : result A) (t1 t2 : list Event) :
  Forall succeeded t1 -> blames r t2 -> blames r (t1 ++ t2).
Proof.
  intros H1 H2. induction H1 as [|[c ok] t1 Hs _ IH]; [exact H2|].
  unfold succeeded in Hs. simpl in Hs. subst ok. apply blames_cons, IH.
Qed.

(** The trace of one failed call, wrapped by [ErrorCalling]. *)
Lemma blames_failed {A} (c : Call) :
  blames (@Err A (ErrorCalling c (ClientError c))) [(c, false)].
Proof. intros c' [Hin|[]]. inversion Hin; subst. eauto. Qed.

Lemma blames_succeeded {A} (r : result A) (t : list Event) :
  Forall succeeded t -> blames r t.
Proof.
  intros H c Hin. rewrite Forall_forall in H. rewrite <- list_elem_of_In in Hin.
  apply H in Hin. discriminate Hin.
Qed.

(** Wrapping an error keeps its root, changing the type of the value
    of a failed run changes nothing. *)
Lemma blames_wrap {A B} (e e' : error) (t : list Event) :
  rootCause e' = rootCause e -> blames (@Err A e) t -> blames (@Err B e') t.
Proof.
  intros E H c Hin. destruct (H c Hin) as (e0 & He & Hr). inversion He; subst e0.
  exists e'. split; [reflexivity|]. rewrite E. exact Hr.
Qed.

Lemma countCalls_app (p : Call -> bool) (t1 t2 : list Event) :
  countCalls p (t1 ++ t2) = (countCalls p t1 + countCalls p t2)%nat.
Proof. unfold countCalls. rewrite List.filter_app, length_app. reflexivity. Qed.

(** A trace of calls of one kind holds no call of a disjoint kind. *)
Lemma countCalls_disjoint (p q : Call -> bool) (t : list Event) :
  (forall c, q c = true -> p c = false) ->
  Forall (fun ev => q (fst ev) = true) t ->
  countCalls p t = 0%nat.
Proof.
  intros Hd Ht. unfold countCalls.
  induction Ht as [|ev t Hq _ IH]; simpl; [reflexivity|].
  rewrite (Hd _ Hq). exact IH.
Qed.

Lemma countCalls_reads (p : Call -> bool) (t : list Event) :
  (forall c, isRead c = true -> p c = false) ->
  Forall readEvent t -> countCalls p t = 0%nat.
Proof. intros Hd Ht. exact (countCalls_disjoint p isRead t Hd Ht). Qed.

(** ** The store under well-formed ids *)

Lemma find_hasId_self (zone : string) (recs : list recordInfo) (r : recordInfo) :
  NoDup (map Id recs) -> In r recs -> Zone r = zone ->
  List.find (hasId zone (Id r)) recs = Some r.
Proof.
  induction recs as [|x recs IH]; intros Hnd Hin Hz; [destruct Hin|].
  simpl in Hnd. apply NoDup_cons in Hnd as [Hx Hnd]. simpl.
  destruct Hin as [->|Hin].
  - unfold hasId. rewrite Hz, String.eqb_refl, Z.eqb_refl. reflexivity.
  - destruct (hasId zone (Id r) x) eqn:E.
    + exfalso. apply Hx. unfold hasId in E.
      apply andb_true_iff in E as [_ E]. apply Z.eqb_eq in E. rewrite E.
      apply list_elem_of_In, in_map, Hin.
    + apply IH; assumption.
Qed.

Lemma listed_zone (zone ft sd : string) (r : recordInfo) :
  listed zone ft sd r = true -> Zone r = zone.
Proof.
  unfold listed. intros H.
  apply andb_true_iff in H as [H _]. apply andb_true_iff in H as [H _].
  apply String.eqb_eq in H. exact H.
Qed.

Lemma exWorld_uniqueIds (faults : list bool) : uniqueIds (remote (exWorld faults)).
Proof. unfold uniqueIds. simpl. apply NoDup_singleton. Qed.


(** ** The lookups are reads *)

Lemma bind_Accept {B} (k : unit -> M B) (w : World) :
  bind Accept k w =
  k tt (mkWorld (remote w) (faults w) (calls w) (S (tokens w)) (metrics w)).
Proof. reflexivity. Qed.

Lemma bind_AddZoneRequests {B} (zone : string) (c : MetricClass) (k : unit -> M B)
    (w : World) :
  bind (AddZoneRequests zone c) k w =
  k tt (mkWorld (remote w) (faults w) (calls w) (tokens w) (metrics w ++ [(zone, c)])).
Proof. reflexivity. Qed.

(** One remote call with its error wrapped, as [access.go] makes them. *)
Lemma wrappedRequest_inv {A} (c : Call) (serve : Remote -> option (A * Remote))
    (w : World) (r : result A) (w' : World) :
  wrapErr (ErrorCalling c) (request c serve) w = (r, w') ->
  calls w' = calls w ++ [(c, isOk r)] /\
  ((r = Err (ErrorCalling c (ClientError c)) /\ remote w' = remote w) \/
   (exists a, r = Ok a /\ serve (remote w) = Some (a, remote w'))).
Proof.
  intros H. apply wrapErr_inv in H as [(a & Hm & ->)|(e & Hm & ->)];
    apply request_inv in Hm as (Hc & _ & [[He Hr]|(a' & Ha & Hs)]);
    try discriminate; simpl in *.
  - inversion Ha; subst a'. eauto.
  - inversion He; subst e. auto.
Qed.

(** The run of one failed read. *)
Lemma readOnlyRun_failed {A} (c : Call) (w w' : World) :
  isRead c = true ->
  calls w' = calls w ++ [(c, false)] -> remote w' = remote w ->
  readOnlyRun w (@Err A (ErrorCalling c (ClientError c))) w'.
Proof.
  intros Hread Hc Hr. exists [(c, false)].
  split; [exact Hc|]. split; [constructor; [exact Hread|constructor]|].
  split; [exact Hr|]. split; [|split; [apply failsLast_single|apply blames_failed]].
  split; [discriminate|]. intros Hf. inversion Hf as [|? ? Hs _]; subst. discriminate Hs.
Qed.

(** A successful read in front of a run that only reads. *)
Lemma readOnlyRun_cons {A} (c : Call) (w w1 w' : World) (r : result A) :
  isRead c = true ->
  calls w1 = calls w ++ [(c, true)] -> remote w1 = remote w ->
  readOnlyRun w1 r w' -> readOnlyRun w r w'.
Proof.
  intros Hread Hc Hr (t & Ht & Hreads & Hrem & [Hok1 Hok2] & Hfl & Hbl).
  exists ((c, true) :: t). split; [rewrite Ht, Hc, <- app_assoc; reflexivity|].
  split; [constructor; [exact Hread|exact Hreads]|].
  split; [rewrite Hrem; exact Hr|].
  split; [|split; [apply failsLast_cons, Hfl|apply blames_cons, Hbl]].
  split.
  - intros Hb. constructor; [reflexivity|auto].
  - intros H. inversion H; subst. auto.
Qed.

Lemma calls_grow (w w' : World) (t : list Event) (ev : Event) :
  calls w' = calls w ++ ev :: t -> calls w' <> calls w.
Proof.
  intros Hc Heq. rewrite Heq in Hc. rewrite <- (app_nil_r (calls w)) in Hc at 1.
  apply app_inv_head in Hc. discriminate Hc.
Qed.

Lemma fetchRecords_sound (zone : string) (ids : list Z) :
  forall (acc : list recordInfo) (w : World) (r : result (list recordInfo)) (w' : World),
    fetchRecords zone ids acc w = (r, w') ->
    readOnlyRun w r w' /\
    forall rs, r = Ok rs ->
      exists fetched, rs = acc ++ fetched /\
        Forall2 (fun id ri => List.find (hasId zone id) (records (remote w)) = Some ri)
                ids fetched.
Proof.
  induction ids as [|id ids IH]; intros acc w r w' H; simpl in H.
  - inversion H; subst. split.
    + exists []. rewrite app_nil_r.
      repeat split; auto using failsLast_nil, blames_nil.
    + intros rs Hrs. inversion Hrs; subst. exists []. rewrite app_nil_r. split; auto.
  - rewrite bind_Accept, bind_AddZoneRequests in H.
    apply bind_inv in H as [(e & Hm & ->)|(ri & w1 & Hm & Hk)];
      apply wrappedRequest_inv in Hm as (Hc & [[He Hr]|(a & Ha & Hs)]);
      try discriminate; simpl in Hc.
    + inversion He; subst e. split; [|intros rs Hrs; discriminate].
      apply readOnlyRun_failed; [reflexivity|exact Hc|exact Hr].
    + inversion Ha; subst a. simpl in Hs. unfold serveRecord in Hs.
      destruct (List.find (hasId zone id) (records (remote w))) as [x|] eqn:Ef;
        [|discriminate].
      inversion Hs as [[Hx Hrem]]. subst x. simpl in Hrem.
      apply IH in Hk as [Hrun Hres]. split.
      * apply (readOnlyRun_cons (GetRecord zone id) w w1 w' r); auto.
      * intros rs Hrs. destruct (Hres rs Hrs) as (fetched & -> & Hf).
        exists (ri :: fetched). rewrite <- app_assoc. split; [reflexivity|].
        constructor; [exact Ef|]. rewrite <- Hrem in Hf. exact Hf.
Qed.

Lemma fetched_listed (zone ft sd : string) (recs all : list recordInfo)
    (fetched : list recordInfo) :
  NoDup (map Id all) ->
  (forall r, In r recs -> In r all /\ listed zone ft sd r = true) ->
  Forall2 (fun id ri => List.find (hasId zone id) all = Some ri) (map Id recs) fetched ->
  fetched = recs.
Proof.
  intros Hnd. revert fetched.
  induction recs as [|r recs IH]; intros fetched Hin Hf; simpl in Hf.
  - inversion Hf. reflexivity.
  - inversion Hf as [|? y ? ys Hy Hys]; subst.
    destruct (Hin r (or_introl eq_refl)) as [Hr Hl].
    rewrite (find_hasId_self zone all r Hnd Hr (listed_zone _ _ _ _ Hl)) in Hy.
    inversion Hy; subst y. f_equal.
    apply IH; [|exact Hys]. intros x Hx. apply Hin. right. exact Hx.
Qed.

(** [getRecordSets] only reads, issues at least the id listing, and on
    success over a store with unique ids returns the listed records in
    listing order. *)
Lemma getRecordSets_sound (zone sd ft : string) (w : World)
    (r : result (list recordInfo)) (w' : World) :
  getRecordSets zone sd ft w = (r, w') ->
  readOnlyRun w r w' /\ calls w' <> calls w /\
  (uniqueIds (remote w) ->
   forall rs, r = Ok rs -> rs = List.filter (listed zone ft sd) (records (remote w))).
Proof.
  unfold getRecordSets. rewrite bind_Accept, bind_AddZoneRequests. intros H.
  apply bind_inv in H as [(e & Hm & ->)|(ids & w1 & Hm & Hk)];
    apply wrappedRequest_inv in Hm as (Hc & [[He Hr]|(a & Ha & Hs)]);
    try discriminate; simpl in Hc.
  - inversion He; subst e. split; [|split].
    + apply readOnlyRun_failed; [reflexivity|exact Hc|exact Hr].
    + exact (calls_grow _ _ _ _ Hc).
    + intros _ rs Hrs. discriminate.
  - inversion Ha; subst a. simpl in Hs. unfold serveRecordIds in Hs.
    inversion Hs as [[Hids Hrem]]. clear Hs. simpl in Hrem.
    apply fetchRecords_sound in Hk as [Hrun Hres].
    pose proof (readOnlyRun_cons (GetRecordIds zone ft sd) w w1 w' r eq_refl Hc
                  (eq_sym Hrem) Hrun) as Hrun'.
    split; [exact Hrun'|split].
    + destruct Hrun as (t & Ht & _). rewrite Hc, <- app_assoc in Ht.
      exact (calls_grow _ _ _ _ Ht).
    + intros Hnd rs Hrs. destruct (Hres rs Hrs) as (fetched & -> & Hf). simpl.
      rewrite <- Hrem in Hf. subst ids.
      apply (fetched_listed zone ft sd _ (records (remote w))); [exact Hnd| |exact Hf].
      intros x Hx. apply List.filter_In in Hx. exact Hx.
Qed.

(** [getRecordSet]: the same run, and the first listed record with the
    requested target. *)
Lemma getRecordSet_sound (zone sd value ft : string) (w : World)
    (r : result (option recordInfo)) (w' : World) :
  getRecordSet zone sd value ft w = (r, w') ->
  readOnlyRun w r w' /\ calls w' <> calls w /\
  (uniqueIds (remote w) ->
   forall o, r = Ok o ->
     o = List.find (fun x => String.eqb (Target x) value)
           (List.filter (listed zone ft sd) (records (remote w)))).
Proof.
  unfold getRecordSet. intros H.
  apply bind_inv in H as [(e & Hm & ->)|(rs & w1 & Hm & Hk)].
  - apply getRecordSets_sound in Hm as ((t & Ht & Hread & Hrem & Hok & Hfl & Hbl) & Hne & _).
    split; [|split]; [|exact Hne|intros _ o Ho; discriminate].
    exists t. split; [|split; [|split; [|split; [|split]]]]; try assumption.
    exact (blames_wrap e e t eq_refl Hbl).
  - unfold ret in Hk. inversion Hk; subst.
    apply getRecordSets_sound in Hm as ((t & Ht & Hread & Hrem & Hok & Hfl & Hbl) & Hne & Hres).
    split; [|split]; [|exact Hne|].
    + exists t. split; [|split; [|split; [|split; [|split]]]]; try assumption.
      apply blames_succeeded, Hok. reflexivity.
    + intros Hnd o Ho. inversion Ho; subst o. rewrite (Hres Hnd rs eq_refl). reflexivity.
Qed.

(** ** The writes *)

(** The shape shared by every write of [access.go]: a token, a metric,
    one remote call with its error wrapped. *)
Lemma guardedCall_inv {A} (zone : string) (cls : MetricClass)
    (c : Call) (serve : Remote -> option (A * Remote))
    (w : World) (r : result A) (w' : World) :
  bind Accept (fun _ => bind (AddZoneRequests zone cls) (fun _ =>
    wrapErr (ErrorCalling c) (request c serve))) w = (r, w') ->
  calls w' = calls w ++ [(c, isOk r)] /\
  ((r = Err (ErrorCalling c (ClientError c)) /\ remote w' = remote w) \/
   (exists a, r = Ok a /\ serve (remote w) = Some (a, remote w'))).
Proof.
  rewrite bind_Accept, bind_AddZoneRequests. intros H.
  apply wrappedRequest_inv in H as (Hc & H). simpl in *. auto.
Qed.

Lemma createRecordSet_inv (zone name value ft : string) (ttl : Z)
    (w : World) (r : result unit) (w' : World) :
  createRecordSet zone name value ft ttl w = (r, w') ->
  let c := PostRecord zone (mkRecordInfo ft 0 name value ttl "") in
  calls w' = calls w ++ [(c, isOk r)] /\
  (isOk r = false -> r = Err (ErrorCalling c (ClientError c))).
Proof.
  unfold createRecordSet. intros H.
  apply guardedCall_inv in H as [Hc [[-> _]|(a & -> & _)]]; simpl; split; auto; discriminate.
Qed.

Lemma refreshZone_inv (zone : string) (w : World) (r : result unit) (w' : World) :
  refreshZone zone w = (r, w') ->
  calls w' = calls w ++ [(PostRefresh zone, isOk r)] /\
  (isOk r = false -> r = Err (ErrorCalling (PostRefresh zone) (ClientError (PostRefresh zone)))).
Proof.
  unfold refreshZone. intros H.
  apply guardedCall_inv in H as [Hc [[-> _]|(a & -> & _)]]; simpl; split; auto; discriminate.
Qed.

(** [deleteRecordSet] is its lookup, followed by one DELETE when the
    lookup found a record. *)
Lemma deleteRecordSet_inv (zone sd value ft : string)
    (w : World) (r : result unit) (w' : World) :
  deleteRecordSet zone sd value ft w = (r, w') ->
  exists ro w1, getRecordSet zone sd value ft w = (ro, w1) /\
    match ro with
    | Err e => r = Err e /\ w' = w1
    | Ok None => r = Ok tt /\ w' = w1
    | Ok (Some rec) =>
        let c := DeleteRecord zone (Id rec) in
        calls w' = calls w1 ++ [(c, isOk r)] /\
        ((r = Err (ErrorCalling c (ClientError c)) /\ remote w' = remote w1) \/
         (r = Ok tt /\ serveDelete zone (Id rec) (remote w1) = Some (tt, remote w')))
    end.
Proof.
  unfold deleteRecordSet. intros H.
  apply bind_inv in H as [(e & Hm & ->)|(o & w1 & Hm & Hk)].
  - exists (Err e), w'. auto.
  - exists (Ok o), w1. split; [exact Hm|]. destruct o as [rec|].
    + apply guardedCall_inv in Hk as [Hc [Hk|([] & Hok & Hs)]]; auto.
    + inversion Hk; subst. auto.
Qed.

(** [updateRecordSet] is its lookup, followed by one PUT when the lookup
    found a record and by the could-not-find error when it did not. *)
Lemma updateRecordSet_inv (zone sd value ft : string) (ttl : Z)
    (w : World) (r : result unit) (w' : World) :
  updateRecordSet zone sd value ft ttl w = (r, w') ->
  exists ro w1, getRecordSet zone sd value ft w = (ro, w1) /\
    match ro with
    | Err e => r = Err e /\ w' = w1
    | Ok None => r = Err (CouldNotFindRecord zone sd ft) /\ w' = w1
    | Ok (Some rec) =>
        let c := PutRecord zone (Id rec) (mkRecordInfo "" 0 "" "" ttl "") in
        calls w' = calls w1 ++ [(c, isOk r)] /\
        ((r = Err (ErrorCalling c (ClientError c)) /\ remote w' = remote w1) \/
         (r = Ok tt /\
          servePut zone (Id rec) (mkRecordInfo "" 0 "" "" ttl "") (remote w1)
            = Some (tt, remote w')))
    end.
Proof.
  unfold updateRecordSet. intros H.
  apply bind_inv in H as [(e & Hm & ->)|(o & w1 & Hm & Hk)].
  - exists (Err e), w'. auto.
  - exists (Ok o), w1. split; [exact Hm|]. destruct o as [rec|].
    + apply guardedCall_inv in Hk as [Hc [Hk|([] & Hok & Hs)]]; auto.
    + inversion Hk; subst. auto.
Qed.





(** ** Updates and deletes of absent records *)

Lemma reads_no_delete (t : list Event) : Forall readEvent t -> countCalls isDelete t = 0%nat.
Proof. apply countCalls_reads. intros []; simpl; congruence. Qed.

Lemma reads_no_put (t : list Event) : Forall readEvent t -> countCalls isPut t = 0%nat.
Proof. apply countCalls_reads. intros []; simpl; congruence. Qed.

(** C6. A delete whose target the lookup does not find remotely issues no
    DELETE call and leaves the store as it is; it returns success exactly
    when no call of the lookup failed. *)
Theorem deleteRecordSet_absent_is_noop (zone sd value ft : string) (w : World)
    (r : result unit) (w' : World) :
  uniqueIds (remote w) ->
  lookup zone sd value ft (remote w) = None ->
  deleteRecordSet zone sd value ft w = (r, w') ->
  exists t, calls w' = calls w ++ t /\
            countCalls isDelete t = 0%nat /\
            remote w' = remote w /\
            (r = Ok tt <-> Forall succeeded t).
Proof.
  intros Hu Hl H.
  apply deleteRecordSet_inv in H as (ro & w1 & Hg & Hm).
  apply getRecordSet_sound in Hg as ((t & Ht & Hread & Hrem & Hok & Hfl) & _ & Hres).
  specialize (Hres Hu).
  destruct ro as [[rec|]|e].
  - specialize (Hres _ eq_refl). unfold lookup in Hl. congruence.
  - destruct Hm as [-> ->]. exists t. split; [exact Ht|].
    split; [exact (reads_no_delete t Hread)|]. split; [exact Hrem|].
    split; [intros _; apply Hok; reflexivity|reflexivity].
  - destruct Hm as [-> ->]. exists t. split; [exact Ht|].
    split; [exact (reads_no_delete t Hread)|]. split; [exact Hrem|].
    split; [discriminate|]. intros Hs. apply Hok in Hs. discriminate.
Qed.

(** The theorem at work: deleting [api -> 5.6.7.8], which [exRemote]
    does not hold. *)
Lemma deleteRecordSet_absent_is_noop_witness :
  exists t,
    calls (snd (deleteRecordSet "example.com" "api" "5.6.7.8" "A" (exWorld []))) = [] ++ t /\
    countCalls isDelete t = 0%nat /\
    remote (snd (deleteRecordSet "example.com" "api" "5.6.7.8" "A" (exWorld []))) = exRemote /\
    (fst (deleteRecordSet "example.com" "api" "5.6.7.8" "A" (exWorld [])) = Ok tt <->
     Forall succeeded t).
Proof.
  apply (deleteRecordSet_absent_is_noop "example.com" "api" "5.6.7.8" "A" (exWorld [])).
  - apply exWorld_uniqueIds.
  - reflexivity.
  - reflexivity.
Defined.

(** The run of that delete: one listing call, no DELETE. *)
Example deleteRecordSet_absent_run :
  deleteRecordSet "example.com" "api" "5.6.7.8" "A" (exWorld []) =
  (Ok tt,
   mkWorld exRemote [] [(GetRecordIds "example.com" "A" "api", true)] 1
     [("example.com", M_LISTRECORDS)]).
Proof. reflexivity. Qed.

(** C2, as the code has it. An update whose target the lookup does not
    find remotely issues no PUT call and leaves the store as it is, and
    it fails: the dispatch returns an update failure, which wraps the
    could-not-find error whenever no call of the lookup failed. *)
Theorem update_absent_is_error (zoneId name value rtype : string) (ttl : Z) (w : World)
    (r : result unit) (w' : World) :
  uniqueIds (remote w) ->
  lookup zoneId name value rtype (remote w) = None ->
  dispatch provider.R_UPDATE zoneId name value rtype ttl w = (r, w') ->
  exists t e, calls w' = calls w ++ t /\
              countCalls isPut t = 0%nat /\
              remote w' = remote w /\
              r = Err (UpdateFailed zoneId e) /\
              (Forall succeeded t -> e = CouldNotFindRecord zoneId name rtype).
Proof.
  intros Hu Hl H. simpl in H.
  apply wrapErr_inv in H as [(a & Hup & ->)|(e & Hup & ->)];
    apply updateRecordSet_inv in Hup as (ro & w1 & Hg & Hm);
    apply getRecordSet_sound in Hg as ((t & Ht & Hread & Hrem & Hok & _) & _ & Hres);
    specialize (Hres Hu);
    (destruct ro as [[rec|]|e0];
     [specialize (Hres _ eq_refl); unfold lookup in Hl; congruence| |]);
    destruct Hm as [He ->]; try discriminate; inversion He; subst.
  - exists t, (CouldNotFindRecord zoneId name rtype). auto using reads_no_put.
  - exists t, e0. split; [exact Ht|]. split; [exact (reads_no_put t Hread)|].
    split; [exact Hrem|]. split; [reflexivity|].
    intros Hs. apply Hok in Hs. discriminate.
Qed.

(** The theorem at work: updating [api -> 5.6.7.8], which [exRemote]
    does not hold. *)
Lemma update_absent_is_error_witness :
  exists t e,
    calls (snd (dispatch provider.R_UPDATE "example.com" "api" "5.6.7.8" "A" 300 (exWorld [])))
      = [] ++ t /\
    countCalls isPut t = 0%nat /\
    remote (snd (dispatch provider.R_UPDATE "example.com" "api" "5.6.7.8" "A" 300 (exWorld [])))
      = exRemote /\
    fst (dispatch provider.R_UPDATE "example.com" "api" "5.6.7.8" "A" 300 (exWorld []))
      = Err (UpdateFailed "example.com" e) /\
    (Forall succeeded t -> e = CouldNotFindRecord "example.com" "api" "A").
Proof.
  apply (update_absent_is_error "example.com" "api" "5.6.7.8" "A" 300 (exWorld [])).
  - apply exWorld_uniqueIds.
  - reflexivity.
  - reflexivity.
Defined.

(** C2 as stated fails. An update request for [api -> 5.6.7.8], which
    the store does not hold, makes [executeRequests] return an error to
    its caller, after the one listing call of the lookup. *)
Lemma update_of_absent_record_fails :
  lookup "example.com" "api." "5.6.7.8" "A" exRemote = None /\
  exRun [exRequest provider.R_UPDATE "api" "5.6.7.8"] (exWorld []) =
  (Err (UpdateFailed "example.com" (CouldNotFindRecord "example.com" "api." "A")),
   mkWorld exRemote [] [(GetRecordIds "example.com" "A" "api.", true)] 2
     [("example.com", M_LISTRECORDS)]).
Proof. split; reflexivity. Qed.



(** On that store the delete removes the record with id 1 and keeps its
    twin with id 2. *)
Example deleteRecordSet_keeps_the_twin :
  deleteRecordSet "example.com" "www" "1.2.3.4" "A" exDuplicates =
  (Ok tt,
   mkWorld (mkRemote [mkZoneInfo false false "" "example.com" []]
              [mkRecordInfo "A" 2 "www" "1.2.3.4" 300 "example.com"] 3)
     []
     [(GetRecordIds "example.com" "A" "www", true); (GetRecord "example.com" 1, true);
      (GetRecord "example.com" 2, true); (DeleteRecord "example.com" 1, true)]
     4
     [("example.com", M_LISTRECORDS); ("example.com", M_LISTRECORDS);
      ("example.com", M_LISTRECORDS); ("example.com", M_DELETERECORDS)]).
Proof. reflexivity. Qed.

(** ** The request loop *)

Lemma reads_no_refresh (t : list Event) : Forall readEvent t -> countCalls isRefresh t = 0%nat.
Proof. apply countCalls_reads. intros []; simpl; congruence. Qed.

Lemma recordRun_nil {A} (w : World) (a : A) : recordRun w (Ok a) w [].
Proof.
  split; [rewrite app_nil_r; reflexivity|]. split; [reflexivity|].
  split; [constructor|]. split; [apply failsLast_nil|apply blames_nil].
Qed.

Lemma recordRun_seq {A B} (w w1 w' : World) (a : A) (r : result B) (t1 t2 : list Event) :
  recordRun w (Ok a) w1 t1 -> recordRun w1 r w' t2 -> recordRun w r w' (t1 ++ t2).
Proof.
  intros (Hc1 & Hn1 & Hs1 & _) (Hc2 & Hn2 & Hs2 & Hf2 & Hb2).
  specialize (Hs1 eq_refl). split; [|split; [|split; [|split]]].
  - rewrite Hc2, Hc1, <- app_assoc. reflexivity.
  - rewrite countCalls_app, Hn1, Hn2. reflexivity.
  - intros Hr. apply Forall_app. auto.
  - apply failsLast_app; assumption.
  - apply blames_app; assumption.
Qed.

Lemma recordRun_reads {A} (w : World) (r : result A) (w' : World) :
  readOnlyRun w r w' -> exists t, recordRun w r w' t /\ Forall readEvent t.
Proof.
  intros (t & Ht & Hread & Hrem & Hok & Hfl & Hbl). exists t.
  split; [|exact Hread]. split; [exact Ht|]. split; [exact (reads_no_refresh t Hread)|].
  split; [apply Hok|]. split; [exact Hfl|exact Hbl].
Qed.

(** The run of one call other than the refresh. *)
Lemma recordRun_one (w : World) (r : result unit) (w' : World) (c : Call) :
  isRefresh c = false ->
  calls w' = calls w ++ [(c, isOk r)] ->
  (isOk r = false -> r = Err (ErrorCalling c (ClientError c))) ->
  recordRun w r w' [(c, isOk r)].
Proof.
  intros Hn Hc He. split; [exact Hc|].
  split; [unfold countCalls; simpl; rewrite Hn; reflexivity|].
  split; [intros Hr; constructor; [exact Hr|constructor]|].
  split; [apply failsLast_single|].
  destruct (isOk r) eqn:E.
  - apply blames_succeeded. constructor; [reflexivity|constructor].
  - rewrite (He eq_refl). apply blames_failed.
Qed.

(** A failed run keeps its trace under a wrapper of its error. *)
Lemma recordRun_wrap {A B} (w : World) (e e' : error) (w' : World) (t : list Event) :
  rootCause e' = rootCause e ->
  recordRun w (@Err A e) w' t -> recordRun w (@Err B e') w' t.
Proof.
  intros E (Hc & Hn & _ & Hf & Hb). split; [exact Hc|]. split; [exact Hn|].
  split; [discriminate|]. split; [exact Hf|exact (blames_wrap e e' t E Hb)].
Qed.

(** A run that returns a value keeps its trace under any other value. *)
Lemma recordRun_value {A B} (w : World) (a : A) (b : B) (w' : World) (t : list Event) :
  recordRun w (Ok a) w' t -> recordRun w (Ok b) w' t.
Proof.
  intros (Hc & Hn & Hs & Hf & _). split; [exact Hc|]. split; [exact Hn|].
  split; [intros _; exact (Hs eq_refl)|].
  split; [exact Hf|exact (blames_succeeded (Ok b) t (Hs eq_refl))].
Qed.

Lemma calls_extended (w w' : World) (t : list Event) :
  calls w' = calls w ++ t -> calls w' <> calls w -> t <> [].
Proof. intros Hc Hne ->. rewrite app_nil_r in Hc. exact (Hne Hc). Qed.

(** The run of [m] with its error wrapped by [f], a wrapper that keeps
    the root of the error. *)
Lemma wrapErr_recordRun (f : error -> error) (m : M unit) (w : World) (r : result unit)
    (w' : World) :
  (forall e, rootCause (f e) = rootCause e) ->
  wrapErr f m w = (r, w') ->
  exists r0, m w = (r0, w') /\
    forall t, recordRun w r0 w' t -> recordRun w r w' t.
Proof.
  intros Hf H. apply wrapErr_inv in H as [(a & Hm & ->)|(e & Hm & ->)].
  - exists (Ok a). split; [exact Hm|]. auto.
  - exists (Err e). split; [exact Hm|]. intros t. apply recordRun_wrap, Hf.
Qed.

(** The lookup of an update or a delete, then the one call [c] that
    follows it when it found a record. *)
Lemma lookupThenCall_run (w w1 w' : World) (rec : recordInfo) (r : result unit)
    (t : list Event) (c : Call) :
  isRefresh c = false ->
  recordRun w (Ok (Some rec)) w1 t ->
  calls w' = calls w1 ++ [(c, isOk r)] ->
  (r = Err (ErrorCalling c (ClientError c)) \/ r = Ok tt) ->
  recordRun w r w' (t ++ [(c, isOk r)]).
Proof.
  intros Hn Hrun Hc Hr.
  apply (recordRun_seq w w1 w' (Some rec) r _ _ Hrun).
  apply recordRun_one; [exact Hn|exact Hc|].
  destruct Hr as [->| ->]; [auto|discriminate].
Qed.

(** One dispatch issues at least one call and never a refresh. *)
Lemma dispatch_run (action : provider.Action) (zoneId name value rtype : string) (ttl : Z)
    (w : World) (r : result unit) (w' : World) :
  dispatch action zoneId name value rtype ttl w = (r, w') ->
  exists t, recordRun w r w' t /\ t <> [].
Proof.
  intros H. destruct action; simpl in H;
    (apply wrapErr_recordRun in H as (r0 & H & Hwrap); [|reflexivity]).
  - apply createRecordSet_inv in H as [Hc He].
    exists [(PostRecord zoneId (mkRecordInfo rtype 0 name value ttl ""), isOk r0)].
    split; [|discriminate]. apply Hwrap, recordRun_one; [reflexivity|exact Hc|exact He].
  - apply updateRecordSet_inv in H as (ro & w1 & Hg & Hm).
    apply getRecordSet_sound in Hg as (Hrun & Hne & _).
    apply recordRun_reads in Hrun as (t & Hrun & _).
    pose proof (calls_extended _ _ _ (proj1 Hrun) Hne) as Ht.
    destruct ro as [[rec|]|e].
    + destruct Hm as [Hc Hr]. eexists. split.
      * apply Hwrap. eapply lookupThenCall_run; [|exact Hrun|exact Hc|];
          [reflexivity|destruct Hr as [[Hr _]|[Hr _]]; auto].
      * destruct t; discriminate.
    + destruct Hm as [-> ->]. exists t. split; [|exact Ht]. apply Hwrap.
      destruct Hrun as (Hc & Hn & Hs & Hf & _). specialize (Hs eq_refl).
      split; [exact Hc|]. split; [exact Hn|]. split; [discriminate|].
      split; [exact Hf|apply blames_succeeded, Hs].
    + destruct Hm as [-> ->]. exists t. split; [|exact Ht].
      apply Hwrap. exact (recordRun_wrap w e e w1 t eq_refl Hrun).
  - apply deleteRecordSet_inv in H as (ro & w1 & Hg & Hm).
    apply getRecordSet_sound in Hg as (Hrun & Hne & _).
    apply recordRun_reads in Hrun as (t & Hrun & _).
    pose proof (calls_extended _ _ _ (proj1 Hrun) Hne) as Ht.
    destruct ro as [[rec|]|e].
    + destruct Hm as [Hc Hr]. eexists. split.
      * apply Hwrap. eapply lookupThenCall_run; [|exact Hrun|exact Hc|];
          [reflexivity|destruct Hr as [[Hr _]|[Hr _]]; auto].
      * destruct t; discriminate.
    + destruct Hm as [-> ->]. exists t. split; [|exact Ht].
      apply Hwrap. exact (recordRun_value w None tt w1 t Hrun).
    + destruct Hm as [-> ->]. exists t. split; [|exact Ht].
      apply Hwrap. exact (recordRun_wrap w e e w1 t eq_refl Hrun).
Qed.

(** The inner loop: the flag it returns is set only by an iteration,
    and every iteration issues calls. *)
Lemma dispatchRecords_run (action : provider.Action) (zoneId name rtype : string)
    (ttl : Z) (records : list dns.Record_) :
  forall (updated : bool) (w : World) (r : result bool) (w' : World),
    dispatchRecords action zoneId name rtype ttl records updated w = (r, w') ->
    exists t, recordRun w r w' t /\
      forall u, r = Ok u -> (u = updated /\ t = [] /\ records = []) \/
                            (u = true /\ t <> [] /\ records <> []).
Proof.
  induction records as [|x records IH]; intros updated w r w' H; simpl in H.
  - inversion H; subst. exists []. split; [apply recordRun_nil|].
    intros u Hu. inversion Hu; subst. left. auto.
  - rewrite bind_Accept in H.
    apply bind_inv in H as [(e & Hm & ->)|([] & w1 & Hm & Hk)].
    + apply dispatch_run in Hm as (t & Hrun & _). exists t.
      split; [exact (recordRun_wrap _ e e _ t eq_refl Hrun)|]. intros u Hu. discriminate.
    + apply dispatch_run in Hm as (t1 & Hrun1 & Hne).
      apply IH in Hk as (t2 & Hrun2 & Hflag). exists (t1 ++ t2). split.
      * apply (recordRun_seq _ w1 w' tt r t1 t2); assumption.
      * intros u Hu. right.
        assert (Ht : t1 ++ t2 <> []) by (destruct t1; [congruence|discriminate]).
        destruct (Hflag u Hu) as [(-> & _)|(-> & _)]; split; auto; split; auto; discriminate.
Qed.

Section Loop.

Variable AlignHostname : string -> string.
Variable MapToProvider : string -> dns.DNSSet -> string -> string * dns.RecordSet.

(** The request loop: it ends with the flag set only if the flag was set
    on entry or it has issued calls. *)
Lemma requestLoop_run (zone : provider.DNSHostedZone) (reqs : list provider.ChangeRequest) :
  forall (updated : bool) (w : World) (r : result loopExit) (w' : World),
    requestLoop AlignHostname MapToProvider zone reqs updated w = (r, w') ->
    exists t, recordRun w r w' t /\
      forall x, r = Ok x -> exitFlag x = true -> updated = true \/ t <> [].
Proof.
  induction reqs as [|req reqs IH]; intros updated w r w' H; simpl in H.
  - inversion H; subst. exists []. split; [apply recordRun_nil|].
    intros x Hx. inversion Hx; subst. simpl. auto.
  - destruct (MapToProvider _ _ _) as [name rset].
    destruct (Nat.eqb (length (dns.Records rset)) 0).
    + inversion H; subst. exists []. split; [apply recordRun_nil|].
      intros x Hx. inversion Hx; subst. discriminate.
    + apply bind_inv in H as [(e & Hm & ->)|(u & w1 & Hm & Hk)].
      * apply dispatchRecords_run in Hm as (t & Hrun & _). exists t.
        split; [exact (recordRun_wrap _ e e _ t eq_refl Hrun)|]. intros x Hx. discriminate.
      * apply dispatchRecords_run in Hm as (t1 & Hrun1 & Hflag1).
        apply IH in Hk as (t2 & Hrun2 & Hflag2). exists (t1 ++ t2). split.
        -- apply (recordRun_seq _ w1 w' u r t1 t2); assumption.
        -- intros x Hx Hf. destruct (Hflag2 x Hx Hf) as [->|Hne].
           ++ destruct (Hflag1 true eq_refl) as [(<- & _)|(_ & Hne & _)]; [auto|].
              right. destruct t1; [congruence|discriminate].
           ++ right. destruct t1; [exact Hne|discriminate].
Qed.

End Loop.

(** ** [executeRequests] *)

Section Execute.

Variable AlignHostname : string -> string.
Variable MapToProvider : string -> dns.DNSSet -> string -> string * dns.RecordSet.

(** The trace of one execution.  Either no refresh is issued, or the
    refresh is the last call, after at least one call of the request
    loop, all of which succeeded.  A failed call is the last one, and
    its error is at the root of the error returned. *)
Lemma executeRequests_shape (h : Handler) (zone : provider.DNSHostedZone)
    (state : provider.DNSZoneState) (reqs : list provider.ChangeRequest)
    (w : World) (r : result unit) (w' : World) :
  executeRequests AlignHostname MapToProvider h zone state reqs w = (r, w') ->
  exists t0, countCalls isRefresh t0 = 0%nat /\
    ((calls w' = calls w ++ t0 /\ (isOk r = true -> Forall succeeded t0) /\
      failsLast t0 /\ blames r t0) \/
     (t0 <> [] /\ Forall succeeded t0 /\
      calls w' = calls w ++ t0 ++ [(PostRefresh (provider.Id zone), isOk r)] /\
      blames r [(PostRefresh (provider.Id zone), isOk r)])).
Proof.
  unfold executeRequests. destruct (provider.DryRun (config h)); intros H.
  - inversion H; subst. exists []. split; [reflexivity|]. left.
    rewrite app_nil_r. split; [reflexivity|]. split; [constructor|].
    split; [apply failsLast_nil|apply blames_nil].
  - apply bind_inv in H as [(e & Hm & ->)|(x & w1 & Hm & Hk)].
    + apply requestLoop_run in Hm as (t & (Hc & Hn & _ & Hf & Hb) & _).
      exists t. split; [exact Hn|]. left. split; [exact Hc|]. split; [discriminate|].
      split; [exact Hf|exact (blames_wrap e e t eq_refl Hb)].
    + apply requestLoop_run in Hm as (t & (Hc & Hn & Hs & Hf & _) & Hflag).
      specialize (Hs eq_refl). specialize (Hflag x eq_refl).
      exists t. split; [exact Hn|].
      destruct x as [|[|]].
      * inversion Hk; subst. left. rewrite Hc. auto using blames_succeeded.
      * right. rewrite bind_Accept in Hk.
        apply wrapErr_inv in Hk as [(a & Hk & ->)|(e & Hk & ->)];
          apply refreshZone_inv in Hk as [Hk He]; simpl in Hk, He;
          rewrite Hc, <- app_assoc in Hk;
          (destruct (Hflag eq_refl) as [?|Hne]; [discriminate|]);
          (split; [exact Hne|split; [exact Hs|split; [exact Hk|]]]).
        -- apply blames_succeeded. constructor; [reflexivity|constructor].
        -- specialize (He eq_refl). inversion He; subst e. simpl.
           apply (@blames_wrap unit unit
                    (ErrorCalling (PostRefresh (provider.Id zone))
                       (ClientError (PostRefresh (provider.Id zone))))).
           ++ reflexivity.
           ++ apply blames_failed.
      * inversion Hk; subst. left. rewrite Hc. auto using blames_succeeded.
Qed.

End Execute.

Lemma count_not_refresh_nil (t : list Event) :
  countCalls (fun c => negb (isRefresh c)) t = 0%nat ->
  countCalls isRefresh t = 0%nat -> t = [].
Proof.
  unfold countCalls. destruct t as [|[c ok] t]; [reflexivity|]. simpl.
  destruct (isRefresh c); simpl; discriminate.
Qed.

(** C5, as the code has it. One execution issues at most one refresh
    call, and it issues none when it issues no other remote call: the
    refresh follows calls made for records, whether or not any of them
    was a write. *)
Theorem executeRequests_refresh_at_most_once
    (AlignHostname : string -> string)
    (MapToProvider : string -> dns.DNSSet -> string -> string * dns.RecordSet)
    (h : Handler) (zone : provider.DNSHostedZone) (state : provider.DNSZoneState)
    (reqs : list provider.ChangeRequest) (w : World) :
  exists t,
    calls (snd (executeRequests AlignHostname MapToProvider h zone state reqs w))
      = calls w ++ t /\
    (countCalls isRefresh t <= 1)%nat /\
    (countCalls (fun c => negb (isRefresh c)) t = 0%nat -> countCalls isRefresh t = 0%nat).
Proof.
  destruct (executeRequests AlignHostname MapToProvider h zone state reqs w) as [r w'] eqn:H.
  apply executeRequests_shape in H as (t0 & Hn & [(Hc & _)|(Hne & Hs & Hc & _)]); simpl.
  - exists t0. rewrite Hn. split; [exact Hc|]. split; [lia|reflexivity].
  - exists (t0 ++ [(PostRefresh (provider.Id zone), isOk r)]). split; [exact Hc|].
    rewrite !countCalls_app, Hn. split; [unfold countCalls; simpl; lia|].
    intros H0. exfalso. apply Hne. apply count_not_refresh_nil; [lia|exact Hn].
Qed.

(** C5 as stated fails. A delete request for [api -> 5.6.7.8], which the
    store does not hold, issues the listing call of the lookup and then
    the refresh: no write call was made, let alone succeeded, and one
    refresh call was issued. *)
Lemma refresh_without_any_write :
  calls (snd (exRun [exRequest provider.R_DELETE "api" "5.6.7.8"] (exWorld []))) =
    [(GetRecordIds "example.com" "A" "api.", true); (PostRefresh "example.com", true)] /\
  countCalls isWrite
    (calls (snd (exRun [exRequest provider.R_DELETE "api" "5.6.7.8"] (exWorld [])))) = 0%nat /\
  countSucceeded isWrite
    (calls (snd (exRun [exRequest provider.R_DELETE "api" "5.6.7.8"] (exWorld [])))) = 0%nat /\
  countCalls isRefresh
    (calls (snd (exRun [exRequest provider.R_DELETE "api" "5.6.7.8"] (exWorld [])))) = 1%nat.
Proof. repeat split; reflexivity. Qed.

(** C9. When a call other than the refresh fails during an execution,
    the execution returns an error, at whose root is the error of that
    call, and its trace holds no refresh call, whatever writes succeeded
    before the failure. *)
Theorem executeRequests_error_skips_refresh
    (AlignHostname : string -> string)
    (MapToProvider : string -> dns.DNSSet -> string -> string * dns.RecordSet)
    (h : Handler) (zone : provider.DNSHostedZone) (state : provider.DNSZoneState)
    (reqs : list provider.ChangeRequest) (w : World) (r : result unit) (w' : World)
    (t : list Event) (c : Call) :
  executeRequests AlignHostname MapToProvider h zone state reqs w = (r, w') ->
  calls w' = calls w ++ t ->
  In (c, false) t -> isRefresh c = false ->
  (exists e, r = Err e /\ rootCause e = ClientError c) /\ countCalls isRefresh t = 0%nat.
Proof.
  intros H Ht Hin Hc.
  apply executeRequests_shape in H as (t0 & Hn & [(Hc0 & _ & _ & Hb)|(_ & Hs & Hc0 & _)]);
    rewrite Hc0 in Ht; apply app_inv_head in Ht; subst t.
  - split; [exact (Hb c Hin)|exact Hn].
  - exfalso. apply in_app_or in Hin as [Hin|[Hin|[]]].
    + rewrite Forall_forall in Hs. rewrite <- list_elem_of_In in Hin.
      apply Hs in Hin. discriminate Hin.
    + inversion Hin; subst. discriminate Hc.
Qed.

(** The theorem at work: the create of [api] succeeds, the create of
    [mail] fails. *)
Lemma executeRequests_error_skips_refresh_witness :
  (exists e, fst (exRun [exRequest provider.R_CREATE "api" "5.6.7.8";
                         exRequest provider.R_CREATE "mail" "9.9.9.9"]
                        (exWorld [false; true])) = Err e /\
             rootCause e = ClientError (exPost "mail." "9.9.9.9")) /\
  countCalls isRefresh [(exPost "api." "5.6.7.8", true); (exPost "mail." "9.9.9.9", false)]
    = 0%nat.
Proof.
  apply (executeRequests_error_skips_refresh exAlignHostname exMapToProvider exHandler
           exZone exState
           [exRequest provider.R_CREATE "api" "5.6.7.8";
            exRequest provider.R_CREATE "mail" "9.9.9.9"]
           (exWorld [false; true]) _
           (snd (exRun [exRequest provider.R_CREATE "api" "5.6.7.8";
                        exRequest provider.R_CREATE "mail" "9.9.9.9"]
                       (exWorld [false; true])))
           _ (exPost "mail." "9.9.9.9")).
  - reflexivity.
  - reflexivity.
  - right. left. reflexivity.
  - reflexivity.
Defined.

(** C1, as the code has it. A failed remote call ends the execution: it
    is the last call of the trace, so nothing is attempted for the
    requests that remain, and the execution returns an error, at whose
    root is the error of that call. *)
Theorem executeRequests_stops_at_first_failure
    (AlignHostname : string -> string)
    (MapToProvider : string -> dns.DNSSet -> string -> string * dns.RecordSet)
    (h : Handler) (zone : provider.DNSHostedZone) (state : provider.DNSZoneState)
    (reqs : list provider.ChangeRequest) (w : World) (r : result unit) (w' : World)
    (t1 t2 : list Event) (c : Call) :
  executeRequests AlignHostname MapToProvider h zone state reqs w = (r, w') ->
  calls w' = calls w ++ t1 ++ (c, false) :: t2 ->
  t2 = [] /\ exists e, r = Err e /\ rootCause e = ClientError c.
Proof.
  intros H Ht.
  apply executeRequests_shape in H as (t0 & Hn & [(Hc0 & _ & Hf & Hb)|(_ & Hs & Hc0 & Hb)]);
    rewrite Hc0 in Ht; apply app_inv_head in Ht.
  - split; [exact (Hf t1 (c, false) t2 Ht eq_refl)|].
    apply Hb. rewrite Ht. apply in_or_app. right. left. reflexivity.
  - assert (Hfl : failsLast (t0 ++ [(PostRefresh (provider.Id zone), isOk r)]))
      by (apply failsLast_app; [exact Hs|apply failsLast_single]).
    pose proof (Hfl t1 (c, false) t2 Ht eq_refl) as ->. split; [reflexivity|].
    apply app_inj_tail in Ht as [_ Ht]. apply Hb. rewrite Ht. left. reflexivity.
Qed.

(** The theorem at work: the create of [api] fails, with a create of
    [mail] behind it. *)
Lemma executeRequests_stops_at_first_failure_witness :
  @nil Event = [] /\
  exists e, fst (exRun [exRequest provider.R_CREATE "api" "5.6.7.8";
                        exRequest provider.R_CREATE "mail" "9.9.9.9"]
                       (exWorld [true])) = Err e /\
            rootCause e = ClientError (exPost "api." "5.6.7.8").
Proof.
  apply (executeRequests_stops_at_first_failure exAlignHostname exMapToProvider exHandler
           exZone exState
           [exRequest provider.R_CREATE "api" "5.6.7.8";
            exRequest provider.R_CREATE "mail" "9.9.9.9"]
           (exWorld [true]) _
           (snd (exRun [exRequest provider.R_CREATE "api" "5.6.7.8";
                        exRequest provider.R_CREATE "mail" "9.9.9.9"]
                       (exWorld [true])))
           [] [] (exPost "api." "5.6.7.8")).
  - reflexivity.
  - reflexivity.
Defined.

(** C1 as stated fails. Of two create requests the first fails: the
    execution returns its error with the failed POST as the only call of
    the trace; the create of [mail] is never attempted. *)
Lemma executeRequests_abandons_remaining_requests :
  exRun [exRequest provider.R_CREATE "api" "5.6.7.8";
         exRequest provider.R_CREATE "mail" "9.9.9.9"] (exWorld [true]) =
  (Err (CreateFailed "example.com"
          (ErrorCalling (exPost "api." "5.6.7.8") (ClientError (exPost "api." "5.6.7.8")))),
   mkWorld exRemote [] [(exPost "api." "5.6.7.8", false)] 2
     [("example.com", M_CREATERECORDS)]).
Proof. reflexivity. Qed.

(** C8. In dry-run mode an execution returns success and leaves the
    world as it is: no call is issued, no token taken, nothing mapped. *)
Theorem executeRequests_dry_run
    (AlignHostname : string -> string)
    (MapToProvider : string -> dns.DNSSet -> string -> string * dns.RecordSet)
    (h : Handler) (zone : provider.DNSHostedZone) (state : provider.DNSZoneState)
    (reqs : list provider.ChangeRequest) (w : World) :
  provider.DryRun (config h) = true ->
  executeRequests AlignHostname MapToProvider h zone state reqs w = (Ok tt, w).
Proof. intros Hd. unfold executeRequests. rewrite Hd. reflexivity. Qed.

(** The theorem at work: a create request under a dry-run handler. *)
Lemma executeRequests_dry_run_witness :
  executeRequests exAlignHostname exMapToProvider exDryHandler exZone exState
    [exRequest provider.R_CREATE "api" "5.6.7.8"] (exWorld []) = (Ok tt, exWorld []).
Proof. apply executeRequests_dry_run. reflexivity. Defined.

(** A request whose mapped record set is empty ends the execution: the
    loop returns at it, whatever requests follow and whatever was
    written before; no refresh is issued. *)
Lemma requestLoop_returns_at_empty_request
    (AlignHostname : string -> string)
    (MapToProvider : string -> dns.DNSSet -> string -> string * dns.RecordSet)
    (zone : provider.DNSHostedZone) (req : provider.ChangeRequest)
    (rest : list provider.ChangeRequest) (updated : bool) (w : World) :
  dns.Records (snd (MapToProvider (provider.Type_ req) (provider.dnsset req)
                      (provider.Domain zone))) = [] ->
  requestLoop AlignHostname MapToProvider zone (req :: rest) updated w = (Ok Returned, w).
Proof.
  intros H. simpl. destruct (MapToProvider _ _ _) as [name rset]. simpl in H.
  rewrite H. reflexivity.
Qed.

(** C3 at its failing input. An empty request followed by the create of
    [api]: the execution returns success without a single call, and the
    create is never made. Alone, the same create is made and followed by
    the refresh. *)
Theorem empty_request_ends_the_batch :
  exRun [exEmpty; exRequest provider.R_CREATE "api" "5.6.7.8"] (exWorld []) =
    (Ok tt, exWorld []) /\
  calls (snd (exRun [exRequest provider.R_CREATE "api" "5.6.7.8"] (exWorld []))) =
    [(exPost "api." "5.6.7.8", true); (PostRefresh "example.com", true)].
Proof. split; reflexivity. Qed.

(** ** [Handler.getZones] *)

Lemma string_length_append (s1 s2 : string) :
  String.length (s1 +:+ s2) = (String.length s1 + String.length s2)%nat.
Proof.
  induction s1 as [|a s1 IH]; [reflexivity|].
  change (String a s1 +:+ s2) with (String a (s1 +:+ s2)). simpl. rewrite IH. reflexivity.
Qed.

(** The name formatted for a record of the zone is never the zone's
    name: it is longer by the sub-domain and the dot. *)
Lemma ownerName_not_zone (r : recordInfo) :
  String.eqb (ownerName r) (Zone r) = false.
Proof.
  apply String.eqb_neq. intros H. apply (f_equal String.length) in H.
  unfold ownerName in H. rewrite !string_length_append in H. simpl in H. lia.
Qed.

Section Directory.

Variable NormalizeHostname : string -> string.
Variable TYPE_CODE : string.

Lemma forwardedLoop_filter (zName : string) (recs : list recordInfo) :
  forall forwarded : list string,
    forwardedLoop NormalizeHostname zName recs forwarded =
    forwarded ++ map NormalizeHostname
      (List.filter (fun name => negb (String.eqb name zName)) (map ownerName recs)).
Proof.
  induction recs as [|r recs IH]; intros forwarded; simpl.
  - rewrite app_nil_r. reflexivity.
  - destruct (negb (String.eqb (ownerName r) zName)); simpl.
    + rewrite IH, <- app_assoc. reflexivity.
    + apply IH.
Qed.

(** On the records of the zone itself the comparison with the zone's
    name never holds: every record is forwarded. *)
Lemma forwardedLoop_in_zone (zName : string) (recs : list recordInfo) :
  (forall r, In r recs -> Zone r = zName) ->
  forwardedLoop NormalizeHostname zName recs [] =
  map (fun r => NormalizeHostname (ownerName r)) recs.
Proof.
  intros Hz. rewrite forwardedLoop_filter. simpl.
  induction recs as [|r recs IH]; [reflexivity|]. simpl.
  rewrite <- (Hz r (or_introl eq_refl)) at 1. rewrite ownerName_not_zone. simpl.
  f_equal. apply IH. intros x Hx. apply Hz. right. exact Hx.
Qed.

Lemma fetchZones_sound (zs : list string) :
  forall (acc : list zoneInfo) (w : World) (r : result (list zoneInfo)) (w' : World),
    fetchZones zs acc w = (r, w') ->
    remote w' = remote w /\
    forall zis, r = Ok zis -> exists fetched, zis = acc ++ fetched /\ map Name fetched = zs.
Proof.
  induction zs as [|z zs IH]; intros acc w r w' H; simpl in H.
  - inversion H; subst. split; [reflexivity|]. intros zis Hz. inversion Hz; subst.
    exists []. rewrite app_nil_r. auto.
  - rewrite bind_Accept, bind_AddZoneRequests in H.
    apply bind_inv in H as [(e & Hm & ->)|(zi & w1 & Hm & Hk)].
    + apply wrapErr_inv in Hm as [(a & _ & Ha)|(e' & Hm & _)]; [discriminate|].
      apply request_inv in Hm as (_ & _ & [[_ Hr]|(a & Ha & _)]); [|discriminate].
      split; [exact Hr|]. intros zis Hz. discriminate.
    + apply wrapErr_inv in Hm as [(a & Hm & Ha)|(e' & _ & He)]; [|discriminate].
      inversion Ha; subst a. clear Ha.
      apply request_inv in Hm as (_ & _ & [[He _]|(a & Ha & Hs)]); [discriminate|].
      inversion Ha; subst a. simpl in Hs. unfold serveZoneInfo in Hs.
      destruct (List.find (fun x => String.eqb (Name x) z) (zones (remote w))) as [x|] eqn:Ef;
        [|discriminate].
      inversion Hs as [[Hx Hrem]]. subst x.
      apply List.find_some in Ef as [_ Ez]. apply String.eqb_eq in Ez.
      apply IH in Hk as [Hrem' Hres]. split; [rewrite Hrem'; symmetry; exact Hrem|].
      intros zis Hz. destruct (Hres zis Hz) as (fetched & -> & Hf).
      exists (zi :: fetched). rewrite <- app_assoc. simpl. rewrite Ez, Hf. auto.
Qed.

Lemma access_getZones_sound (w : World) (r : result (list zoneInfo)) (w' : World) :
  access_getZones w = (r, w') ->
  remote w' = remote w /\
  forall zis, r = Ok zis -> map Name zis = map Name (zones (remote w)).
Proof.
  unfold access_getZones. rewrite bind_Accept, bind_AddZoneRequests. intros H.
  apply bind_inv in H as [(e & Hm & ->)|(zs & w1 & Hm & Hk)].
  - apply wrapErr_inv in Hm as [(a & _ & Ha)|(e' & Hm & _)]; [discriminate|].
    apply request_inv in Hm as (_ & _ & [[_ Hr]|(a & Ha & _)]); [|discriminate].
    split; [exact Hr|]. intros zis Hz. discriminate.
  - apply wrapErr_inv in Hm as [(a & Hm & Ha)|(e' & _ & He)]; [|discriminate].
    inversion Ha; subst a. clear Ha.
    apply request_inv in Hm as (_ & _ & [[He _]|(a & Ha & Hs)]); [discriminate|].
    inversion Ha; subst a. simpl in Hs. unfold serveZoneList in Hs.
    inversion Hs as [[Hzs Hrem]].
    apply fetchZones_sound in Hk as [Hrem' Hres]. split; [rewrite Hrem'; symmetry; exact Hrem|].
    intros zis Hz. destruct (Hres zis Hz) as (fetched & -> & Hf). simpl.
    rewrite Hf. symmetry. exact Hzs.
Qed.

Lemma hostedZonesLoop_sound (zs : list zoneInfo) :
  forall (acc : list provider.DNSHostedZone) (w : World)
         (hzs : list provider.DNSHostedZone) (w' : World),
    uniqueIds (remote w) ->
    hostedZonesLoop NormalizeHostname TYPE_CODE zs acc w = (Ok hzs, w') ->
    hzs = acc ++ map (hostedZoneOf NormalizeHostname TYPE_CODE (remote w)) (map Name zs).
Proof.
  induction zs as [|z zs IH]; intros acc w hzs w' Hu H; simpl in H.
  - inversion H; subst. simpl. rewrite app_nil_r. reflexivity.
  - apply bind_inv in H as [(e & _ & He)|(recs & w1 & Hm & Hk)]; [discriminate|].
    apply wrapErr_inv in Hm as [(a & Hm & Ha)|(e' & _ & He)]; [|discriminate].
    inversion Ha; subst a. clear Ha.
    apply getRecordSets_sound in Hm as ((t & _ & _ & Hrem & _) & _ & Hres).
    rewrite (Hres Hu recs eq_refl) in Hk.
    rewrite <- Hrem in Hu. apply (IH _ _ _ _ Hu) in Hk. rewrite Hk, Hrem.
    simpl. rewrite <- app_assoc. reflexivity.
Qed.

(** What a successful zone listing returns, over a store with unique
    ids: one hosted zone per remote zone, in listing order, each
    forwarding the normalized formatted name of every NS record of the
    zone; no record is left out. *)
Lemma Handler_getZones_sound (h : Handler) (w : World)
    (hzs : list provider.DNSHostedZone) (w' : World) :
  uniqueIds (remote w) ->
  Handler_getZones NormalizeHostname TYPE_CODE h w = (Ok hzs, w') ->
  hzs = map (fun name =>
               provider.NewDNSHostedZone TYPE_CODE name (NormalizeHostname name) name
                 (map (fun r => NormalizeHostname (ownerName r))
                      (List.filter (listed name "NS" "") (records (remote w))))
                 false)
            (map Name (zones (remote w))).
Proof.
  intros Hu H. unfold Handler_getZones in H.
  apply bind_inv in H as [(e & _ & He)|(zis & w1 & Hm & Hk)]; [discriminate|].
  apply wrapErr_inv in Hm as [(a & Hm & Ha)|(e' & _ & He)]; [|discriminate].
  inversion Ha; subst a. clear Ha.
  apply access_getZones_sound in Hm as [Hrem Hz]. specialize (Hz zis eq_refl).
  rewrite <- Hrem in Hu. apply (hostedZonesLoop_sound _ _ _ _ _ Hu) in Hk.
  rewrite Hk, Hz, Hrem. simpl. apply map_ext. intros name. unfold hostedZoneOf.
  f_equal. apply forwardedLoop_in_zone. intros r Hr.
  apply List.filter_In in Hr as [_ Hr]. exact (listed_zone _ _ _ _ Hr).
Qed.

End Directory.

(** C4 at its failing input. The zone [example.com] holds its own NS
    record at the apex (empty sub-domain) and one delegation, [sub]. The
    name formatted for the apex record is [.example.com], which is not
    the zone's name, so the apex record is forwarded like the
    delegation. *)
Theorem apex_NS_record_is_forwarded :
  fst (Handler_getZones exNormalizeHostname "ovhcloud" exHandler exApex) =
  Ok [provider.NewDNSHostedZone "ovhcloud" "example.com" "example.com" "example.com"
        [".example.com"; "sub.example.com"] false].
Proof. reflexivity. Qed.

(** ** [Handler.getZoneState] *)

Section ZoneState.

Variable NormalizeHostname : string -> string.
Variable listRecordSets : string -> M (list recordsets.RecordSet).

Lemma addValues_eq (rtype : string) (recs : list string) :
  forall rs : dns.RecordSet,
    addValues NormalizeHostname rtype recs rs =
    dns.mkRecordSet (dns.Type_ rs) (dns.TTL rs)
      (dns.Records rs ++
       map (fun v => dns.mkRecord (storedValue NormalizeHostname rtype v)) recs).
Proof.
  induction recs as [|v recs IH]; intros rs; simpl.
  - rewrite app_nil_r. destruct rs; reflexivity.
  - rewrite IH. simpl. rewrite <- app_assoc. reflexivity.
Qed.

Lemma recordSetHandler_keeps (all : list recordsets.RecordSet)
    (dnssets : gmap string dns.DNSSet) (rset : recordsets.RecordSet) :
  In rset all -> onlySupported NormalizeHostname all dnssets ->
  onlySupported NormalizeHostname all (fst (recordSetHandler NormalizeHostname dnssets rset)) /\
  snd (recordSetHandler NormalizeHostname dnssets rset) = None.
Proof.
  intros Hin Hgood. unfold recordSetHandler.
  destruct (supportedType (recordsets.Type_ rset)) eqn:Hsup; simpl; [|auto].
  split; [|reflexivity].
  intros name rtype dnsset rs Hname Htype.
  unfold AddRecordSetFromProvider in Hname. rewrite addValues_eq in Hname. simpl in Hname.
  destruct (decide (NormalizeHostname (recordsets.Name rset) = name)) as [E|E].
  - rewrite E, lookup_insert_eq in Hname. inversion Hname; subst dnsset. clear Hname.
    simpl in Htype.
    destruct (decide (recordsets.Type_ rset = rtype)) as [Et|Et].
    + rewrite Et, lookup_insert_eq in Htype. inversion Htype; subst rs. clear Htype.
      split; [rewrite <- Et; exact Hsup|]. exists rset. split; [exact Hin|].
      unfold mergedFrom. simpl. rewrite map_map. simpl. rewrite Et. auto.
    + rewrite lookup_insert_ne in Htype by exact Et.
      destruct (dnssets !! name) as [old|] eqn:Eold; simpl in Htype.
      * exact (Hgood name rtype old rs Eold Htype).
      * rewrite lookup_empty in Htype. discriminate.
  - rewrite lookup_insert_ne in Hname by exact E.
    exact (Hgood name rtype dnsset rs Hname Htype).
Qed.

Lemma forEach_keeps (all : list recordsets.RecordSet) (rsets : list recordsets.RecordSet) :
  forall dnssets : gmap string dns.DNSSet,
    (forall rset, In rset rsets -> In rset all) ->
    onlySupported NormalizeHostname all dnssets ->
    exists d, forEach (recordSetHandler NormalizeHostname) rsets dnssets = Ok d /\
              onlySupported NormalizeHostname all d.
Proof.
  induction rsets as [|rset rsets IH]; intros dnssets Hsub Hgood; simpl.
  - eauto.
  - destruct (recordSetHandler_keeps all dnssets rset (Hsub rset (or_introl eq_refl)) Hgood)
      as [Hk Hnone].
    destruct (recordSetHandler NormalizeHostname dnssets rset) as [d' o]. simpl in *.
    subst o. apply IH; [|exact Hk]. intros x Hx. apply Hsub. right. exact Hx.
Qed.

(** C7. Every record set of a zone state that [getZoneState] returns
    has type A, CNAME or TXT and comes from a remote record set of that
    type: the values of a CNAME set are the normalized remote values,
    the values of an A or TXT set are the remote values as they are. *)
Theorem getZoneState_supported_types_only (h : Handler) (zone : provider.DNSHostedZone)
    (w : World) (state : provider.DNSZoneState) (w' : World)
    (name rtype : string) (dnsset : dns.DNSSet) (rs : dns.RecordSet) :
  getZoneState NormalizeHostname listRecordSets h zone w = (Ok state, w') ->
  provider.GetDNSSets state !! name = Some dnsset ->
  dns.Sets dnsset !! rtype = Some rs ->
  (rtype = dns.RS_A \/ rtype = dns.RS_CNAME \/ rtype = dns.RS_TXT) /\
  dns.Type_ rs = rtype /\
  exists (w0 : World) (rsets : list recordsets.RecordSet) (rset : recordsets.RecordSet),
    listRecordSets (provider.Id zone) w0 = (Ok rsets, w') /\
    In rset rsets /\
    recordsets.Type_ rset = rtype /\
    NormalizeHostname (recordsets.Name rset) = name /\
    dns.TTL rs = recordsets.TTL rset /\
    map dns.Value (dns.Records rs) =
      (if String.eqb rtype dns.RS_CNAME
       then map NormalizeHostname (recordsets.Records rset)
       else recordsets.Records rset).
Proof.
  unfold getZoneState. rewrite bind_Accept. intros H Hname Htype.
  apply bind_inv in H as [(e & _ & He)|(d & w1 & Hm & Hk)]; [discriminate|].
  inversion Hk; subst state w1. clear Hk. simpl in Hname.
  apply wrapErr_inv in Hm as [(a & Hm & Ha)|(e' & _ & He)]; [|discriminate].
  inversion Ha; subst a. clear Ha. unfold ForEachRecordSet in Hm.
  apply bind_inv in Hm as [(e & _ & He)|(rsets & w1 & Hl & Hk)]; [discriminate|].
  destruct (forEach_keeps rsets rsets ∅ (fun _ Hx => Hx)) as (d' & Hd & Hgood).
  { intros n t ds r0 Hn. rewrite lookup_empty in Hn. discriminate. }
  rewrite Hd in Hk. inversion Hk; subst d' w1. clear Hk.
  destruct (Hgood name rtype dnsset rs Hname Htype)
    as (Hsup & rset & Hin & Hn & Ht & Hty & Httl & Hv).
  split; [|split; [exact Hty|]].
  - unfold supportedType in Hsup.
    apply orb_true_iff in Hsup as [Hsup|Hsup]; [apply orb_true_iff in Hsup as [Hsup|Hsup]|];
      apply String.eqb_eq in Hsup; auto.
  - eexists _, rsets, rset. split; [exact Hl|]. split; [exact Hin|].
    split; [exact Ht|]. split; [exact Hn|]. split; [exact Httl|].
    rewrite Hv. unfold storedValue. destruct (String.eqb rtype dns.RS_CNAME).
    + reflexivity.
    + apply map_id.
Qed.

End ZoneState.

(** The theorem at work: the CNAME set read from [exListing]. *)
Lemma getZoneState_supported_types_only_witness :
  ("CNAME" = dns.RS_A \/ "CNAME" = dns.RS_CNAME \/ "CNAME" = dns.RS_TXT) /\
  dns.Type_ exCname = "CNAME" /\
  exists (w0 : World) (rsets : list recordsets.RecordSet) (rset : recordsets.RecordSet),
    exListing "example.com" w0 = (Ok rsets, mkWorld exRemote [] [] 1 []) /\
    In rset rsets /\
    recordsets.Type_ rset = "CNAME" /\
    exNormalizeHostname (recordsets.Name rset) = "www.example.com" /\
    dns.TTL exCname = recordsets.TTL rset /\
    map dns.Value (dns.Records exCname) =
      (if String.eqb "CNAME" dns.RS_CNAME
       then map exNormalizeHostname (recordsets.Records rset)
       else recordsets.Records rset).
Proof.
  apply (getZoneState_supported_types_only exNormalizeHostname exListing exHandler exZone
           (exWorld []) exZoneState (mkWorld exRemote [] [] 1 [])
           "www.example.com" "CNAME"
           (dns.mkDNSSet "www.example.com" {[ "CNAME" := exCname ]}) exCname).
  - vm_compute. reflexivity.
  - vm_compute. reflexivity.
  - vm_compute. reflexivity.
Defined.

(** The MX set of [exListing] is not in the state read from it. *)
Example getZoneState_drops_MX :
  getZoneState exNormalizeHostname exListing exHandler exZone (exWorld []) =
    (Ok exZoneState, mkWorld exRemote [] [] 1 []) /\
  provider.GetDNSSets exZoneState !! "example.com" = None.
Proof. split; vm_compute; reflexivity. Qed.
